(** * chat_shell_101: the HTTP streaming surface

    A shallow embedding of [chat_shell_101/api/schemas.py],
    [chat_shell_101/api/sse.py] and [chat_shell_101/api/routes.py], and of the
    event buffer of the [streaming] package, with the properties of the
    streaming pipeline stated over them.

    Python values are modelled as follows.
    - A [dict] with string keys whose order matters for serialisation is an
      association list; the process-wide registry
      [app_state["active_sessions"]] is a [gmap] from subtask ids to session
      records.
    - [datetime.now()] and [uuid.uuid4()] read the outside world: the world
      carries a source for each and a count of the readings made so far.
    - A handler is a function from a world to an outcome (a value or a raised
      exception) and a new world: mutations made before a [raise] persist. *)

From Stdlib Require Import ZArith Lia.
From stdpp Require Import gmap strings list fin_maps pretty.

Open Scope string_scope.
Open Scope list_scope.
Open Scope nat_scope.

#[local] Set Warnings "-register-all".

(** ** Python values *)

(** A [datetime], as microseconds since the epoch. *)
Definition datetime := Z.

(** The values that travel in [Dict[str, Any]] payloads and in JSON bodies. *)
Inductive Value :=
  | VNone
  | VBool (b : bool)
  | VInt (n : Z)
  | VStr (s : string)
  | VDatetime (t : datetime)
  | VList (l : list Value)
  | VDict (d : list (string * Value)).

(** A [dict] literal, in insertion order. *)
Definition Dict := list (string * Value).

(** [d.get(key)] *)
Fixpoint dict_lookup (key : string) (d : Dict) : option Value :=
  match d with
  | [] => None
  | (k, v) :: rest => if String.eqb k key then Some v else dict_lookup key rest
  end.

(** [d.get(key, default)] *)
Definition dict_get (key : string) (default : Value) (d : Dict) : Value :=
  match dict_lookup key d with
  | Some v => v
  | None => default
  end.

(** [d.keys()] *)
Definition dict_keys (d : Dict) : list string := map fst d.

(** ** Exceptions *)

(** The exceptions of the model: [CancelledError] derives from
    [BaseException] only, the others from [Exception]. *)
Inductive Exn :=
  | HTTPException (status_code : Z) (detail : string)
  | ValidationError (model : string) (field : string)
  | CancelledError
  | Exception (msg : string).

(** [isinstance(e, Exception)] *)
Definition is_Exception (e : Exn) : bool :=
  match e with
  | CancelledError => false
  | _ => true
  end.

(** [str(e)]. For a [ValidationError] the text is pydantic's, shortened to the
    model and the field it names. *)
Definition str_exn (e : Exn) : string :=
  match e with
  | HTTPException code detail => pretty code +:+ ": " +:+ detail
  | ValidationError model field =>
      "1 validation error for " +:+ model +:+ " " +:+ field
  | CancelledError => ""
  | Exception msg => msg
  end.

(** ** schemas.py *)

Inductive MessageRole := USER | ASSISTANT | SYSTEM.

Definition MessageRole_value (r : MessageRole) : string :=
  match r with
  | USER => "user"
  | ASSISTANT => "assistant"
  | SYSTEM => "system"
  end.

Record ChatMessage := {
  role : MessageRole;
  content : string;
  message_timestamp : option datetime;
}.

(** [ChatRequest]. The [temperature] field (a float) is left out; no handler
    reads it, nor [model], [max_tokens], [tools] and [metadata]. *)
Record ChatRequest := {
  messages : list ChatMessage;
  session_id : option string;
  model : option string;
  max_tokens : option Z;
  tools : option (list string);
  stream : bool;
  metadata : option Dict;
}.

(** A request body before validation: [stream] may be absent. *)
Record ChatRequestBody := {
  body_messages : list ChatMessage;
  body_session_id : option string;
  body_model : option string;
  body_max_tokens : option Z;
  body_tools : option (list string);
  body_stream : option bool;
  body_metadata : option Dict;
}.

(** The field defaults of [ChatRequest]: [max_tokens] 4096, [stream] True. *)
Definition ChatRequest_of_body (b : ChatRequestBody) : ChatRequest :=
  {| messages := body_messages b;
     session_id := body_session_id b;
     model := body_model b;
     max_tokens := Some (default 4096%Z (body_max_tokens b));
     tools := body_tools b;
     stream := default true (body_stream b);
     metadata := body_metadata b |}.

Record ChatResponse := {
  resp_subtask_id : string;
  resp_session_id : string;
  resp_status : string;
  resp_created_at : datetime;
}.

Definition ChatResponse_status_literal : list string :=
  ["created"; "running"; "completed"; "error"].

Record ChatEvent := {
  event_type : string;
  data : Dict;
  timestamp : datetime;
}.

Definition ChatEvent_event_type_literal : list string :=
  ["content"; "tool_call"; "tool_result"; "thinking"; "error"; "complete";
   "cancelled"].

Record SessionStatus := {
  ss_subtask_id : string;
  ss_session_id : string;
  ss_status : string;
  ss_created_at : datetime;
  ss_updated_at : option datetime;
  ss_message_count : Z;
  ss_metadata : option Dict;
}.

Definition SessionStatus_status_literal : list string :=
  ["pending"; "running"; "completed"; "error"; "cancelled"].

(** [x in literal], as a boolean. *)
Definition in_literal (x : string) (literal : list string) : bool :=
  existsb (String.eqb x) literal.

Definition opt_value {A} (f : A → Value) (o : option A) : Value :=
  match o with
  | Some a => f a
  | None => VNone
  end.

(** [event.model_dump()]: every field of the model, in declaration order. *)
Definition ChatEvent_model_dump (ev : ChatEvent) : Dict :=
  [("event_type", VStr (event_type ev));
   ("data", VDict (data ev));
   ("timestamp", VDatetime (timestamp ev))].

(** The body FastAPI renders for [response_model=ChatResponse]. *)
Definition ChatResponse_json (r : ChatResponse) : Dict :=
  [("subtask_id", VStr (resp_subtask_id r));
   ("session_id", VStr (resp_session_id r));
   ("status", VStr (resp_status r));
   ("created_at", VDatetime (resp_created_at r))].

(** The body FastAPI renders for [response_model=SessionStatus]; a field that
    is [None] is rendered as [null]. *)
Definition SessionStatus_json (s : SessionStatus) : Dict :=
  [("subtask_id", VStr (ss_subtask_id s));
   ("session_id", VStr (ss_session_id s));
   ("status", VStr (ss_status s));
   ("created_at", VDatetime (ss_created_at s));
   ("updated_at", opt_value VDatetime (ss_updated_at s));
   ("message_count", VInt (ss_message_count s));
   ("metadata", opt_value VDict (ss_metadata s))].

(** The fields of a JSON object that carry content (are not [null]). *)
Definition is_null (v : Value) : bool :=
  match v with
  | VNone => true
  | _ => false
  end.

Definition content_fields (d : Dict) : list string :=
  dict_keys (List.filter (λ kv, negb (is_null kv.2)) d).

(** ** The process state and the handler monad *)

(** The value stored under a subtask id by [start_chat]: a dict with the keys
    [session_id], [status], [created_at] and [messages]. *)
Record Session := {
  sess_session_id : string;
  sess_status : string;
  sess_created_at : datetime;
  sess_messages : list ChatMessage;
}.

Record World := {
  active_sessions : gmap string Session;
  now_src : nat → datetime;
  now_calls : nat;
  uuid_src : nat → string;
  uuid_calls : nat;
}.

Inductive Outcome (A : Type) :=
  | Return (a : A)
  | Raise (e : Exn).
Arguments Return {A} a.
Arguments Raise {A} e.

Definition Py (A : Type) : Type := World → Outcome A * World.

#[export] Instance Py_ret : MRet Py := λ A a w, (Return a, w).

#[export] Instance Py_bind : MBind Py := λ A B f m w,
  match m w with
  | (Return a, w1) => f a w1
  | (Raise e, w1) => (Raise e, w1)
  end.

Definition raise {A} (e : Exn) : Py A := λ w, (Raise e, w).

Definition with_sessions (m : gmap string Session) (w : World) : World :=
  {| active_sessions := m;
     now_src := now_src w; now_calls := now_calls w;
     uuid_src := uuid_src w; uuid_calls := uuid_calls w |}.

(** [datetime.now()] *)
Definition datetime_now : Py datetime := λ w,
  (Return (now_src w (now_calls w)),
   {| active_sessions := active_sessions w;
      now_src := now_src w; now_calls := S (now_calls w);
      uuid_src := uuid_src w; uuid_calls := uuid_calls w |}).

(** [str(uuid.uuid4())] *)
Definition uuid4_str : Py string := λ w,
  (Return (uuid_src w (uuid_calls w)),
   {| active_sessions := active_sessions w;
      now_src := now_src w; now_calls := now_calls w;
      uuid_src := uuid_src w; uuid_calls := S (uuid_calls w) |}).

(** [app_state["active_sessions"]] *)
Definition get_sessions : Py (gmap string Session) := λ w,
  (Return (active_sessions w), w).

(** [app_state["active_sessions"][subtask_id] = session] *)
Definition store_session (subtask_id : string) (session : Session) : Py unit :=
  λ w, (Return (), with_sessions (<[subtask_id := session]> (active_sessions w)) w).

Definition set_status (status : string) (session : Session) : Session :=
  {| sess_session_id := sess_session_id session;
     sess_status := status;
     sess_created_at := sess_created_at session;
     sess_messages := sess_messages session |}.

(** [app_state["active_sessions"][subtask_id]["status"] = status], reached
    only where [subtask_id] is a key of the registry. *)
Definition assign_status (subtask_id status : string) : Py unit :=
  λ w, (Return (),
        with_sessions (alter (set_status status) subtask_id (active_sessions w)) w).

(** [if subtask_id in app_state["active_sessions"]: ...["status"] = status] *)
Definition mark_status (subtask_id status : string) : Py unit :=
  sessions ← get_sessions;
  if bool_decide (subtask_id ∈ dom sessions)
  then assign_status subtask_id status
  else mret ().

(** ** The model constructors, with pydantic's validation *)

(** The validation of [ChatEvent(event_type=..., data=...)]: the event type
    must be one of the literals and the data a dict. *)
Definition ChatEvent_validate (type_ data_ : Value) : Exn + string * Dict :=
  match type_ with
  | VStr kind =>
      if in_literal kind ChatEvent_event_type_literal then
        match data_ with
        | VDict d => inr (kind, d)
        | _ => inl (ValidationError "ChatEvent" "data")
        end
      else inl (ValidationError "ChatEvent" "event_type")
  | _ => inl (ValidationError "ChatEvent" "event_type")
  end.

(** [ChatEvent(event_type=..., data=...)]; the timestamp defaults to
    [datetime.now()]. *)
Definition ChatEvent_new (type_ data_ : Value) : Py ChatEvent :=
  match ChatEvent_validate type_ data_ with
  | inr (kind, d) =>
      now ← datetime_now;
      mret {| event_type := kind; data := d; timestamp := now |}
  | inl e => raise e
  end.

(** [ChatResponse(subtask_id=..., session_id=..., status=...)] *)
Definition ChatResponse_new (subtask_id session_id status : string)
  : Py ChatResponse :=
  if in_literal status ChatResponse_status_literal then
    now ← datetime_now;
    mret {| resp_subtask_id := subtask_id; resp_session_id := session_id;
            resp_status := status; resp_created_at := now |}
  else raise (ValidationError "ChatResponse" "status").

(** [SessionStatus(subtask_id=..., ..., message_count=...)]; [metadata] is not
    passed and defaults to [None]. *)
Definition SessionStatus_new (subtask_id session_id status : string)
    (created_at : datetime) (updated_at : option datetime) (message_count : Z)
  : Py SessionStatus :=
  if in_literal status SessionStatus_status_literal then
    mret {| ss_subtask_id := subtask_id; ss_session_id := session_id;
            ss_status := status; ss_created_at := created_at;
            ss_updated_at := updated_at; ss_message_count := message_count;
            ss_metadata := None |}
  else raise (ValidationError "SessionStatus" "status").

(** ** sse.py *)

(** One run of [agent.stream(messages, thread_id=session_id)], seen from its
    consumer: the dicts it yields, then how it ends. The agent is a
    collaborator of [stream_chat_events], which passes [messages] and
    [session_id] on to it and reads nothing else of it, so a run is an input
    of the model. It ends by returning or by an exception leaving the
    [async for]: one the agent raises, or the [CancelledError] delivered to
    the task while it awaits the agent. A call that fails before the first
    event is a run with nothing pending. *)
Inductive ProducerEnd :=
  | Exhausted
  | Raises (e : Exn).

Record Producer := {
  pending : list Dict;
  ending : ProducerEnd;
}.

(** Where the generator [stream_chat_events] stands between two resumptions. *)
Inductive GenPc :=
  | InLoop (p : Producer)
      (** not started, or suspended at the [yield] of the loop body *)
  | AtComplete
      (** suspended at [yield ChatEvent(event_type="complete", ...)] *)
  | AtCancelled
      (** suspended at the [yield] of the [CancelledError] clause *)
  | AtError
      (** suspended at the [yield] of the [Exception] clause *)
  | Closed.
      (** returned, or left by an exception *)

(** What one resumption ([__anext__]) gives its caller. *)
Inductive GenResult (A : Type) :=
  | Yield (a : A)
  | StopAsyncIteration
  | Raised (e : Exn).
Arguments Yield {A} a.
Arguments StopAsyncIteration {A}.
Arguments Raised {A} e.

(** [yield ChatEvent(event_type=kind, data=payload)], suspending at [pc]. *)
Definition yield_event (type_ data_ : Value) (pc : GenPc) (w : World)
  : GenResult ChatEvent * GenPc * World :=
  match ChatEvent_new type_ data_ w with
  | (Return ev, w1) => (Yield ev, pc, w1)
  | (Raise e, w1) => (Raised e, Closed, w1)
  end.

(** The [except] clauses, entered with the exception [e] raised in the [try]. *)
Definition stream_chat_events_except (subtask_id : string) (e : Exn) (w : World)
  : GenResult ChatEvent * GenPc * World :=
  match e with
  | CancelledError =>
      let w1 := (mark_status subtask_id "cancelled" w).2 in
      yield_event (VStr "cancelled") (VDict []) AtCancelled w1
  | _ =>
      let w1 := (mark_status subtask_id "error" w).2 in
      yield_event (VStr "error") (VDict [("message", VStr (str_exn e))])
        AtError w1
  end.

(** One resumption of [stream_chat_events(agent, messages, session_id,
    subtask_id)] standing at [pc]: the code run up to the next [yield], the
    return or the exception that leaves the generator. *)
Definition stream_chat_events_next (subtask_id : string) (pc : GenPc) (w : World)
  : GenResult ChatEvent * GenPc * World :=
  match pc with
  | InLoop p =>
      match pending p with
      | event :: rest =>
          let type_ := dict_get "type" (VStr "") event in
          let data_ := dict_get "data" (VDict []) event in
          match ChatEvent_new type_ data_ w with
          | (Return ev, w1) =>
              (Yield ev, InLoop {| pending := rest; ending := ending p |}, w1)
          | (Raise e, w1) => stream_chat_events_except subtask_id e w1
          end
      | [] =>
          match ending p with
          | Exhausted => yield_event (VStr "complete") (VDict []) AtComplete w
          | Raises e => stream_chat_events_except subtask_id e w
          end
      end
  | AtComplete =>
      (StopAsyncIteration, Closed, (mark_status subtask_id "completed" w).2)
  | AtCancelled => (Raised CancelledError, Closed, w)
  | AtError => (StopAsyncIteration, Closed, w)
  | Closed => (StopAsyncIteration, Closed, w)
  end.

(** How a drained generator ended. *)
Inductive GenEnd :=
  | Returned
  | Propagated (e : Exn)
  | Unfinished.

(** [async for event in gen: ...], the consumer taking every event: the events
    in order, how the generator ended, and the world it left. *)
Fixpoint drain {A} (next : GenPc → World → GenResult A * GenPc * World)
    (fuel : nat) (pc : GenPc) (w : World) : list A * GenEnd * World :=
  match fuel with
  | O => ([], Unfinished, w)
  | S fuel' =>
      match next pc w with
      | (Yield ev, pc1, w1) =>
          let '(evs, fin, w2) := drain next fuel' pc1 w1 in (ev :: evs, fin, w2)
      | (StopAsyncIteration, _, w1) => ([], Returned, w1)
      | (Raised e, _, w1) => ([], Propagated e, w1)
      end
  end.

(** Resumptions that drain a generator over [p]: one per pending event, one
    for the closing event and one for the end. *)
Definition resumptions (p : Producer) : nat := length (pending p) + 2.

(** The whole event sequence of [stream_chat_events] over the producer [p]. *)
Definition stream_chat_events (subtask_id : string) (p : Producer) (w : World)
  : list ChatEvent * GenEnd * World :=
  drain (stream_chat_events_next subtask_id) (resumptions p) (InLoop p) w.

(** ** routes.py *)

(** The dict [event_generator] yields for one event, which
    [EventSourceResponse] writes as one frame. *)
Record Frame := {
  frame_event : string;
  frame_data : Dict;
}.

(** [{"event": event.event_type, "data": event.model_dump()}] *)
Definition frame_of (event : ChatEvent) : Frame :=
  {| frame_event := event_type event;
     frame_data := ChatEvent_model_dump event |}.

(** One resumption of [event_generator()]: it resumes [stream_chat_events] and
    wraps the event it gets. It holds no state of its own. *)
Definition event_generator_next (subtask_id : string) (pc : GenPc) (w : World)
  : GenResult Frame * GenPc * World :=
  match stream_chat_events_next subtask_id pc w with
  | (Yield event, pc1, w1) => (Yield (frame_of event), pc1, w1)
  | (StopAsyncIteration, pc1, w1) => (StopAsyncIteration, pc1, w1)
  | (Raised e, pc1, w1) => (Raised e, pc1, w1)
  end.

(** The frames of one streamed response, the client reading to the end. *)
Definition event_generator (subtask_id : string) (p : Producer) (w : World)
  : list Frame * GenEnd * World :=
  drain (event_generator_next subtask_id) (resumptions p) (InLoop p) w.

(** What [event_generator] closes over: the arguments of the call of
    [stream_chat_events] it will make. *)
Record EventGenerator := {
  gen_messages : list Dict;
  gen_session_id : string;
  gen_subtask_id : string;
}.

(** What [start_chat] returns. *)
Inductive StartChatResponse :=
  | EventSourceResponse (gen : EventGenerator) (headers : list (string * string))
  | JSONResponse (r : ChatResponse).

(** [int(datetime.now().timestamp())]: whole seconds, rounded towards zero. *)
Definition int_timestamp (t : datetime) : Z := Z.quot t 1000000.

(** [request.session_id or f"session-{int(datetime.now().timestamp())}"]:
    [None] and the empty string are both false. *)
Definition session_id_or_default (request : ChatRequest) : Py string :=
  match session_id request with
  | Some s =>
      if bool_decide (s = "") then
        now ← datetime_now; mret ("session-" +:+ pretty (int_timestamp now))
      else mret s
  | None =>
      now ← datetime_now; mret ("session-" +:+ pretty (int_timestamp now))
  end.

(** [[{"role": m.role, "content": m.content} for m in request.messages]] *)
Definition message_dicts (msgs : list ChatMessage) : list Dict :=
  map (λ m, [("role", VStr (MessageRole_value (role m)));
             ("content", VStr (content m))]) msgs.

(** [POST /response] *)
Definition start_chat (request : ChatRequest) : Py StartChatResponse :=
  subtask_id ← uuid4_str;
  session_id ← session_id_or_default request;
  created_at ← datetime_now;
  store_session subtask_id
    {| sess_session_id := session_id;
       sess_status := "running";
       sess_created_at := created_at;
       sess_messages := messages request |};;
  if stream request then
    mret (EventSourceResponse
            {| gen_messages := message_dicts (messages request);
               gen_session_id := session_id;
               gen_subtask_id := subtask_id |}
            [("X-Subtask-ID", subtask_id)])
  else
    r ← ChatResponse_new subtask_id session_id "created";
    mret (JSONResponse r).

(** [GET /response/{subtask_id}]. A stored session is a dict of four keys, so
    [not session] holds for a missing one only. *)
Definition get_session_status (subtask_id : string) : Py SessionStatus :=
  sessions ← get_sessions;
  match sessions !! subtask_id with
  | None => raise (HTTPException 404 "Subtask not found")
  | Some session =>
      updated_at ← datetime_now;
      SessionStatus_new subtask_id (sess_session_id session)
        (sess_status session) (sess_created_at session) (Some updated_at)
        (Z.of_nat (length (sess_messages session)))
  end.

(** [DELETE /response/{subtask_id}] *)
Definition cancel_session (subtask_id : string) : Py Dict :=
  sessions ← get_sessions;
  if bool_decide (subtask_id ∈ dom sessions) then
    assign_status subtask_id "cancelled";;
    mret [("status", VStr "cancelled"); ("subtask_id", VStr subtask_id)]
  else raise (HTTPException 404 "Subtask not found").

(** ** Runs of the server *)

(** What the event loop runs one after the other: a request handled to its
    end, or one resumption of the generator of an open stream. *)
Inductive Op :=
  | POST (request : ChatRequest)
  | GET (subtask_id : string)
  | DELETE (subtask_id : string)
  | RESUME (subtask_id : string) (pc : GenPc).

Definition step (op : Op) (w : World) : World :=
  match op with
  | POST request => (start_chat request w).2
  | GET subtask_id => (get_session_status subtask_id w).2
  | DELETE subtask_id => (cancel_session subtask_id w).2
  | RESUME subtask_id pc => (stream_chat_events_next subtask_id pc w).2
  end.

Definition run (ops : list Op) (w : World) : World :=
  foldl (λ w op, step op w) w ops.

(** The statuses after which a session does no more work. *)
Definition terminal_status (status : string) : bool :=
  in_literal status ["completed"; "error"; "cancelled"].

(** The status of a session of the registry. *)
Definition status_of (subtask_id : string) (w : World) : option string :=
  sess_status <$> active_sessions w !! subtask_id.

(** ** Vocabulary of the statements *)

(** The event type and the payload [stream_chat_events] reads off a dict of
    the producer. *)
Definition raw_type (event : Dict) : Value := dict_get "type" (VStr "") event.
Definition raw_data (event : Dict) : Value := dict_get "data" (VDict []) event.

(** The producer's dict passes the validation of [ChatEvent]. *)
Definition well_formed (event : Dict) : Prop :=
  ∃ kind d, ChatEvent_validate (raw_type event) (raw_data event) = inr (kind, d).

(** [ev] is the producer's dict [event], forwarded. *)
Definition forwards (ev : ChatEvent) (event : Dict) : Prop :=
  raw_type event = VStr (event_type ev) ∧ raw_data event = VDict (data ev).

(** The event types [stream_chat_events] emits by itself. *)
Definition closing_types : list string := ["complete"; "cancelled"; "error"].

(** [uuid4] does not return [subtask_id] from [w] on. *)
Definition never_drawn_again (subtask_id : string) (w : World) : Prop :=
  ∀ k : nat, (uuid_calls w ≤ k)%nat → uuid_src w k ≠ subtask_id.

(** Modelled from the spec: [api/app.py], which creates [app_state], is not
    among the sources; a session is inserted into the registry when it is
    created (section 3), so the registry is empty at start-up. The worlds the
    server can be in are those a run reaches from there. *)
Inductive reachable : World → Prop :=
  | reachable_start w : active_sessions w = ∅ → reachable w
  | reachable_step op w : reachable w → reachable (step op w).

(** The subtask id a response of [start_chat] tells the client: the field of
    the JSON body, or the [X-Subtask-ID] header of the stream. *)
Definition response_subtask_id (r : StartChatResponse) : option string :=
  match r with
  | EventSourceResponse _ headers => snd <$> head headers
  | JSONResponse r => Some (resp_subtask_id r)
  end.

(** ** The event buffer of a stream session *)

Module Streaming.

(** Modelled from the spec: the modules [streaming/events.py],
    [streaming/state.py], [streaming/buffer.py] and [streaming/core.py] are
    not among the sources ([streaming/__init__.py] only imports their names).
    The definitions below follow sections 3, 4.2 and 4.3 of the
    specification: the event kinds, the session states, a bounded buffer with
    first-in first-out eviction and a base offset, and [append], which assigns
    the next offset and is refused once the session is terminal. *)
Inductive EventType :=
  | Chunk | ToolStart | ToolResult | Thinking | OffsetMarker
  | Error | Complete | Cancelled.

(** Modelled from the spec: the states of a session (section 3). *)
Inductive StreamingState := PENDING | RUNNING | COMPLETED | ERROR | CANCELLED.

(** Modelled from the spec: the errors [append] fails with (section 7). *)
Inductive StreamingError :=
  | StreamCompletedError
  | StreamCancelledError.

(** Modelled from the spec: an event as the producer hands it over, without
    an offset (section 4.3). *)
Record Unstamped := {
  u_kind : EventType;
  u_payload : Dict;
  u_timestamp : datetime;
}.

(** Modelled from the spec: the stored event (section 3). *)
Record Event := {
  kind : EventType;
  payload : Dict;
  offset : nat;
  timestamp : datetime;
}.

(** Modelled from the spec: the bounded buffer of one session (section 3). *)
Record EventBuffer := {
  capacity : nat;
  base_offset : nat;
  events : list Event;
}.

(** Modelled from the spec: a session owns its buffer and a monotonic offset
    counter (section 2). *)
Record StreamSession := {
  state : StreamingState;
  buffer : EventBuffer;
  next_offset : nat;
}.

(** Modelled from the spec: a session as created, pending, with nothing
    stored and the counter at 0. *)
Definition fresh (capacity : nat) : StreamSession :=
  {| state := PENDING;
     buffer := {| capacity := capacity; base_offset := 0; events := [] |};
     next_offset := 0 |}.

(** Modelled from the spec: the stored event has its offset populated. *)
Definition stamp (n : nat) (u : Unstamped) : Event :=
  {| kind := u_kind u; payload := u_payload u; offset := n;
     timestamp := u_timestamp u |}.

(** Modelled from the spec: storing one event; when the capacity is exceeded
    the oldest event is dropped and the base offset is incremented. *)
Definition store (ev : Event) (b : EventBuffer) : EventBuffer :=
  let evs := events b ++ [ev] in
  if decide (capacity b < length evs) then
    {| capacity := capacity b; base_offset := S (base_offset b);
       events := tail evs |}
  else
    {| capacity := capacity b; base_offset := base_offset b; events := evs |}.

(** Modelled from the spec: the state after an event of kind [k] was
    appended; the first event makes the session running, a terminal kind ends
    it (section 4.2). *)
Definition state_after (k : EventType) : StreamingState :=
  match k with
  | Error => ERROR
  | Complete => COMPLETED
  | Cancelled => CANCELLED
  | _ => RUNNING
  end.

(** Modelled from the spec: [append(event-without-offset) -> Event] assigns
    the next offset, stores the event and returns it; it fails once the
    session is terminal and then changes nothing (sections 3, 4.3, 8.3). *)
Definition append (u : Unstamped) (s : StreamSession)
  : (StreamingError + Event) * StreamSession :=
  match state s with
  | COMPLETED | ERROR => (inl StreamCompletedError, s)
  | CANCELLED => (inl StreamCancelledError, s)
  | PENDING | RUNNING =>
      let ev := stamp (next_offset s) u in
      (inr ev,
       {| state := state_after (u_kind u);
          buffer := store ev (buffer s);
          next_offset := S (next_offset s) |})
  end.

(** Modelled from the spec: publishing a sequence of events, one [append]
    each (section 4.4, without the fan-out to connections). *)
Fixpoint publish_all (us : list Unstamped) (s : StreamSession)
  : list (StreamingError + Event) * StreamSession :=
  match us with
  | [] => ([], s)
  | u :: rest =>
      let '(r, s1) := append u s in
      let '(rs, s2) := publish_all rest s1 in
      (r :: rs, s2)
  end.

(** The offsets given to the events that were accepted. *)
Definition assigned_offsets (rs : list (StreamingError + Event)) : list nat :=
  omap (λ r, match r with inr ev => Some (offset ev) | inl _ => None end) rs.

(** The offsets of the events the buffer holds. *)
Definition stored_offsets (s : StreamSession) : list nat :=
  map offset (events (buffer s)).

End Streaming.

(** ** Invariants and relations between worlds *)

(** [w'] differs from [w] in clock readings at most. *)
Definition only_ticks (w w' : World) : Prop :=
  active_sessions w' = active_sessions w
  ∧ now_src w' = now_src w
  ∧ uuid_src w' = uuid_src w
  ∧ uuid_calls w' = uuid_calls w.

(** [w'] is [w] with the status of [subtask_id], where it is registered, set
    to [status], and clock readings. *)
Definition status_set (subtask_id status : string) (w w' : World) : Prop :=
  active_sessions w' = alter (set_status status) subtask_id (active_sessions w)
  ∧ now_src w' = now_src w
  ∧ uuid_src w' = uuid_src w
  ∧ uuid_calls w' = uuid_calls w.

(** The loop of [stream_chat_events] as a function of the producer's run:
    the type and payload of each event forwarded, and what leaves the loop,
    the producer's end or the first dict that [ChatEvent] refuses. *)
Fixpoint loop_trace (events : list Dict) (fin : ProducerEnd)
  : list (string * Dict) * ProducerEnd :=
  match events with
  | [] => ([], fin)
  | event :: rest =>
      match ChatEvent_validate (raw_type event) (raw_data event) with
      | inr kd => let '(kds, fin') := loop_trace rest fin in (kd :: kds, fin')
      | inl e => ([], Raises e)
      end
  end.

(** What follows the loop: the event emitted, the status written, and how the
    generator ends. *)
Definition closing (fin : ProducerEnd) : string * Dict * string * GenEnd :=
  match fin with
  | Exhausted => ("complete", [], "completed", Returned)
  | Raises CancelledError =>
      ("cancelled", [], "cancelled", Propagated CancelledError)
  | Raises e => ("error", [("message", VStr (str_exn e))], "error", Returned)
  end.

Definition type_and_data (ev : ChatEvent) : string * Dict :=
  (event_type ev, data ev).

(** [s'] is [s] some steps later: only its status may differ, and then it is
    terminal. *)
Definition evolves (s s' : Session) : Prop :=
  sess_session_id s' = sess_session_id s
  ∧ sess_created_at s' = sess_created_at s
  ∧ sess_messages s' = sess_messages s
  ∧ (sess_status s' = sess_status s ∨ terminal_status (sess_status s') = true).

(** Every status of the registry is one [SessionStatus] accepts. *)
Definition statuses_valid (w : World) : Prop :=
  ∀ subtask_id s, active_sessions w !! subtask_id = Some s →
    in_literal (sess_status s) SessionStatus_status_literal = true.

(** What [append] keeps true of a session: the buffer holds a gap-free run of
    offsets that ends at the counter and is as long as the capacity allows. *)
Definition window (s : Streaming.StreamSession) : Prop :=
  let b := Streaming.buffer s in
  Streaming.stored_offsets s
  = seq (Streaming.base_offset b) (length (Streaming.events b))
  ∧ Streaming.base_offset b + length (Streaming.events b)
    = Streaming.next_offset s
  ∧ length (Streaming.events b)
    = Streaming.next_offset s `min` Streaming.capacity b.

(** ** Inputs the statements are tried on *)

(** A world at start-up: nothing registered, a clock and an id source. *)
Definition example_world : World :=
  {| active_sessions := ∅;
     now_src := λ n, (1700000000000000 + Z.of_nat n)%Z;
     now_calls := 0;
     uuid_src := λ n, "subtask-" +:+ pretty n;
     uuid_calls := 0 |}.

Definition example_messages : list ChatMessage :=
  [{| role := SYSTEM; content := "Be brief."; message_timestamp := None |};
   {| role := USER; content := "What is 2 + 2?"; message_timestamp := None |}].

Definition example_request (streaming : bool) : ChatRequest :=
  {| messages := example_messages; session_id := Some "s1"; model := None;
     max_tokens := Some 4096%Z; tools := None; stream := streaming;
     metadata := None |}.

(** The world after one [POST /response]; its subtask id is ["subtask-0"]. *)
Definition example_posted (streaming : bool) : World :=
  (start_chat (example_request streaming) example_world).2.

(** A run of a producer that reports a failure as an event and goes on:
    after a [tool_call] dict it yields an [error] dict, then the answer, and
    returns. The [ChatAgent] sse.py imports is not among the sources; the
    consumers of its [stream] in examples/ (01_basic_usage.py 154-176,
    05_streaming_advanced.py 329-335) read [error] dicts inside their loops
    and go on reading. *)
Definition tool_failure_run : Producer :=
  {| pending :=
       [[("type", VStr "tool_call");
         ("data", VDict [("tool", VStr "calculator");
                         ("input", VDict [("expression", VStr "2 +")])])];
        [("type", VStr "error");
         ("data", VDict [("message", VStr "tool failed")])];
        [("type", VStr "content");
         ("data", VDict [("text", VStr "I could not compute that.")])]];
     ending := Exhausted |}.

(** A run of the agent that yields one chunk and returns. *)
Definition greeting_run : Producer :=
  {| pending := [[("type", VStr "content");
                  ("data", VDict [("text", VStr "Hi")])]];
     ending := Exhausted |}.

(** A run of the agent that yields one chunk and then raises. *)
Definition failing_run : Producer :=
  {| pending := pending greeting_run;
     ending := Raises (Exception "connection reset") |}.

Definition five_chunks : list Streaming.Unstamped :=
  map (λ t, {| Streaming.u_kind := Streaming.Chunk;
               Streaming.u_payload := [("text", VStr "x")];
               Streaming.u_timestamp := t |})
      [0; 1; 2; 3; 4]%Z.

(** The world after one streamed [POST /response] whose stream was read to
    its end: the session ["subtask-0"] is completed. *)
Definition example_completed : World :=
  (stream_chat_events "subtask-0" greeting_run (example_posted true)).2.

(** ** routes.py: the health check *)

Section Health.

(** Python's [float], with the one operation [health_check] uses, the
    conversion of the [int] 0 and the truth value of a float. *)
Context {float : Type}.
Context (float_sub : float → float → float).
Context (float_of_int : Z → float).
Context (float_bool : float → bool).

Record HealthResponse := {
  health_status : string;
  health_version : string;
  health_uptime_seconds : float;
  health_active_sessions : Z;
  health_models_available : list string;
}.

(** [GET /health]. What it reads besides the registry is given: the value of
    [app_state["start_time"]], the reading of [time.time()] and
    [config.openai.model]. *)
Definition health_check (start_time : option float) (time_time : float)
    (config_model : string) : Py HealthResponse :=
  let uptime :=
    match start_time with
    | Some t => if float_bool t then float_sub time_time t else float_of_int 0
    | None => float_of_int 0
    end in
  sessions ← get_sessions;
  mret {| health_status := "healthy";
          health_version := "0.1.0";
          health_uptime_seconds := uptime;
          health_active_sessions := Z.of_nat (size sessions);
          health_models_available := [config_model] |}.

End Health.

(** The [POST /response] requests of a run. *)
Definition posts (ops : list Op) : nat :=
  length (List.filter (λ op, match op with POST _ => true | _ => false end) ops).

(** ** agent.py *)

Module Agent.

(** A tool call of an [AIMessage]: a dict with the keys [name], [args] and
    [id]. *)
Record ToolCall := {
  tc_name : string;
  tc_args : Value;
  tc_id : string;
}.

(** The LangChain messages [stream] tells apart, their content taken as a
    string. *)
Inductive Message :=
  | SystemMessage (content : string)
  | HumanMessage (content : string)
  | AIMessage (content : string) (tool_calls : list ToolCall)
  | OtherMessage.

(** [msg[key]] on a [Dict[str, str]]. *)
Fixpoint item (key : string) (msg : list (string * string)) : option string :=
  match msg with
  | [] => None
  | (k, v) :: rest => if String.eqb k key then Some v else item key rest
  end.

(** [KeyError(key)]; its [str] is the [repr] of the key. *)
Definition KeyError (key : string) : Exn := Exception ("'" +:+ key +:+ "'").

(** One turn of the conversion loop of [stream]: the message appended to
    [lc_messages], if any. *)
Definition convert_message (msg : list (string * string))
  : Exn + option Message :=
  match item "role" msg with
  | None => inl (KeyError "role")
  | Some r =>
      if String.eqb r "system" then
        match item "content" msg with
        | Some c => inr (Some (SystemMessage c))
        | None => inl (KeyError "content")
        end
      else if String.eqb r "user" then
        match item "content" msg with
        | Some c => inr (Some (HumanMessage c))
        | None => inl (KeyError "content")
        end
      else if String.eqb r "assistant" then
        match item "content" msg with
        | Some c => inr (Some (AIMessage c []))
        | None => inl (KeyError "content")
        end
      else inr None
  end.

(** The conversion loop: [lc_messages], or the first [KeyError]. *)
Fixpoint convert_messages (messages : list (list (string * string)))
  : Exn + list Message :=
  match messages with
  | [] => inr []
  | msg :: rest =>
      match convert_message msg with
      | inl e => inl e
      | inr converted =>
          match convert_messages rest with
          | inl e => inl e
          | inr lc_messages => inr (option_list converted ++ lc_messages)
          end
      end
  end.

(** What [stream] meets outside itself in one call: how [initialize] ends
    when the agent was not initialized; for the messages of the initial
    state [self.graph.astream] is given, the [messages] entry of each value
    it yields ([None] when the key is absent) and how that iteration ends;
    and what the n-th [self.tool_executor.ainvoke] of the call gives, a
    result or an exception. *)
Record Run := {
  init_error : option Exn;
  graph_events : list Message → list (option (list Message));
  graph_end : list Message → ProducerEnd;
  tool_outcome : nat → Exn + Value;
}.

(** The truth value of a Python value, as [if x:] takes it. *)
Definition truthy (v : Value) : bool :=
  match v with
  | VNone => false
  | VBool b => b
  | VInt n => negb (n =? 0)%Z
  | VStr s => negb (String.eqb s "")
  | VDatetime _ => true
  | VList [] => false
  | VList _ => true
  | VDict [] => false
  | VDict _ => true
  end.

(** Why a call [stream(messages, **kwargs)] can fail before the body of
    [stream] runs: a keyword that names no parameter, or one that names a
    parameter the positional argument has filled. Both are [TypeError]s. *)
Inductive BindError :=
  | UnexpectedKeyword (keyword : string)
  | MultipleValues (parameter : string).

(** The parameters of [stream] after [self]. *)
Definition stream_parameters : list string := ["messages"; "show_thinking"].

(** The keyword arguments of a call [stream(messages, **kwargs)], bound in
    the order they are written: what [show_thinking] is bound to, or the
    first failure. *)
Fixpoint bind_keywords (kwargs : Dict) (show_thinking : Value)
  : BindError + Value :=
  match kwargs with
  | [] => inr show_thinking
  | (keyword, value) :: rest =>
      if String.eqb keyword "show_thinking" then bind_keywords rest value
      else if String.eqb keyword "messages" then inl (MultipleValues keyword)
      else inl (UnexpectedKeyword keyword)
  end.

Section Stream.

(** [str(x)] of a Python value, as an f-string renders it, and [str(e)] of
    the [TypeError] of a call that cannot be bound. *)
Context (py_str : Value → string) (TypeError_str : BindError → string).

Definition thinking_event (tool_call : ToolCall) : Dict :=
  [("type", VStr "thinking");
   ("data", VDict [("text", VStr ("调用工具 " +:+ tc_name tool_call
                                  +:+ " 参数: " +:+ py_str (tc_args tool_call)))])].

Definition tool_call_event (tool_call : ToolCall) : Dict :=
  [("type", VStr "tool_call");
   ("data", VDict [("tool", VStr (tc_name tool_call));
                   ("input", tc_args tool_call)])].

Definition tool_result_event (result : Value) : Dict :=
  [("type", VStr "tool_result"); ("data", VDict [("result", result)])].

Definition tool_error_event (e : Exn) : Dict :=
  [("type", VStr "error");
   ("data", VDict [("message", VStr ("工具执行错误: " +:+ str_exn e))])].

Definition content_event (text : string) : Dict :=
  [("type", VStr "content"); ("data", VDict [("text", VStr text)])].

(** The body of [for tool_call in last_message.tool_calls] for one tool call
    whose execution gives [outcome]: the events yielded, and the exception
    that leaves the generator when it is not an [Exception]. *)
Definition tool_call_events (show_thinking : bool) (tool_call : ToolCall)
    (outcome : Exn + Value) : list Dict * option Exn :=
  let announced :=
    (if show_thinking then [thinking_event tool_call] else [])
    ++ [tool_call_event tool_call] in
  match outcome with
  | inr result => (announced ++ [tool_result_event result], None)
  | inl e =>
      if is_Exception e then (announced ++ [tool_error_event e], None)
      else (announced, Some e)
  end.

(** The loop over the tool calls of one message; [n] tool executions were
    made before it. *)
Fixpoint tool_calls_events (show_thinking : bool) (tool_calls : list ToolCall)
    (outcomes : nat → Exn + Value) (n : nat) : list Dict * option Exn * nat :=
  match tool_calls with
  | [] => ([], None, n)
  | tool_call :: rest =>
      match tool_call_events show_thinking tool_call (outcomes n) with
      | (events, Some e) => (events, Some e, S n)
      | (events, None) =>
          let '(events', raised, n') :=
            tool_calls_events show_thinking rest outcomes (S n) in
          (events ++ events', raised, n')
      end
  end.

(** The body of [async for event in self.graph.astream(...)] for one
    value. *)
Definition graph_event_events (show_thinking : bool)
    (event : option (list Message)) (outcomes : nat → Exn + Value) (n : nat)
  : list Dict * option Exn * nat :=
  match event with
  | Some event_messages =>
      match last event_messages with
      | Some (AIMessage content tool_calls) =>
          match tool_calls with
          | [] =>
              if bool_decide (content = "") then ([], None, n)
              else ([content_event content], None, n)
          | _ => tool_calls_events show_thinking tool_calls outcomes n
          end
      | _ => ([], None, n)
      end
  | None => ([], None, n)
  end.

(** The loop over the values of the graph. *)
Fixpoint graph_stream (show_thinking : bool)
    (events : list (option (list Message))) (fin : ProducerEnd)
    (outcomes : nat → Exn + Value) (n : nat) : Producer :=
  match events with
  | [] => {| pending := []; ending := fin |}
  | event :: rest =>
      match graph_event_events show_thinking event outcomes n with
      | (yielded, Some e, _) => {| pending := yielded; ending := Raises e |}
      | (yielded, None, n') =>
          let p := graph_stream show_thinking rest fin outcomes n' in
          {| pending := yielded ++ pending p; ending := ending p |}
      end
  end.

(** [ChatAgent.stream(messages, show_thinking)]: the run its consumer
    sees. *)
Definition stream (messages : list (list (string * string)))
    (show_thinking : bool) (run : Run) : Producer :=
  match init_error run with
  | Some e => {| pending := []; ending := Raises e |}
  | None =>
      match convert_messages messages with
      | inl e => {| pending := []; ending := Raises e |}
      | inr lc_messages =>
          graph_stream show_thinking (graph_events run lc_messages)
            (graph_end run lc_messages) (tool_outcome run) 0
      end
  end.

(** [agent.stream(messages, **kwargs)] on this [ChatAgent], iterated: the
    call binds its arguments first, [show_thinking] being [False] when it is
    not given, and raises a [TypeError] when it cannot; nothing of the body
    of [stream] has run then. *)
Definition call_stream (messages : list (list (string * string)))
    (kwargs : Dict) (run : Run) : Producer :=
  match bind_keywords kwargs (VBool false) with
  | inl err =>
      {| pending := []; ending := Raises (Exception (TypeError_str err)) |}
  | inr show_thinking => stream messages (truthy show_thinking) run
  end.

(** What ends [invoke] other than its [return]. *)
Inductive InvokeError :=
  | StreamRaised (e : Exn)
  | LookupFailed (key : string)
  | NotAString.

(** [event["data"]["text"]], to be appended to a [str]. *)
Definition event_text (event : Dict) : InvokeError + string :=
  match dict_lookup "data" event with
  | None => inl (LookupFailed "data")
  | Some (VDict d) =>
      match dict_lookup "text" d with
      | None => inl (LookupFailed "text")
      | Some (VStr text) => inr text
      | Some _ => inl NotAString
      end
  | Some _ => inl NotAString
  end.

(** The loop of [invoke] over the events of a stream. *)
Fixpoint collect_content (events : list Dict) (fin : ProducerEnd)
    (full_response : string) : InvokeError + string :=
  match events with
  | [] =>
      match fin with
      | Exhausted => inr full_response
      | Raises e => inl (StreamRaised e)
      end
  | event :: rest =>
      match dict_lookup "type" event with
      | None => inl (LookupFailed "type")
      | Some (VStr kind) =>
          if String.eqb kind "content" then
            match event_text event with
            | inl e => inl e
            | inr text => collect_content rest fin (full_response +:+ text)
            end
          else collect_content rest fin full_response
      | Some _ => collect_content rest fin full_response
      end
  end.

(** [ChatAgent.invoke(messages)] *)
Definition invoke (messages : list (list (string * string))) (run : Run)
  : InvokeError + string :=
  let p := stream messages false run in
  collect_content (pending p) (ending p) "".

End Stream.

(** A [Dict[str, str]] among the values of Python. *)
Definition str_dict (d : list (string * string)) : Dict :=
  map (λ kv, (kv.1, VStr kv.2)) d.

(** The dicts [start_chat] hands to the agent, as [Dict[str, str]]. *)
Definition api_messages (msgs : list ChatMessage) : list (list (string * string)) :=
  map (λ m, [("role", MessageRole_value (role m)); ("content", content m)]) msgs.

(** The tool calls [stream] meets: those of the last message of each value
    of the graph, when it is an [AIMessage]. *)
Definition met_tool_calls (events : list (option (list Message)))
  : list ToolCall :=
  flat_map (λ event,
              match event with
              | Some event_messages =>
                  match last event_messages with
                  | Some (AIMessage _ tool_calls) => tool_calls
                  | _ => []
                  end
              | None => []
              end) events.

(** The answers [stream] meets: the content of the last message of each
    value of the graph, when it is an [AIMessage] without tool calls. *)
Definition answers (events : list (option (list Message))) : list string :=
  flat_map (λ event,
              match event with
              | Some event_messages =>
                  match last event_messages with
                  | Some (AIMessage content []) => [content]
                  | _ => []
                  end
              | None => []
              end) events.

End Agent.

(** ** tools/registry.py *)

Module Tools.

(** Modelled from the spec: [tools/base.py] is not among the sources; a
    tool's [execute] gives [{result, error?}] (section 6). *)
Record ToolOutput := {
  result : Value;
  error : option string;
}.

(** What [ToolRegistry] uses of a [BaseTool]: its name and description, its
    input schema (a class whose call validates keyword arguments) and its
    [execute], taken as a function of the validated input. *)
Class BaseTool (Tool : Type) := {
  name : Tool → string;
  description : Tool → string;
  input_schema : Tool → Dict → Exn + Dict;
  execute : Tool → Dict → Exn + ToolOutput;
}.

Inductive RegistryError :=
  | KeyError (message : string).

Section Registry.

Context `{BaseTool Tool}.

(** The cell of the loop variable [tool] in the frame of
    [to_langchain_tools]: unbound until the first iteration assigns it. *)
Definition Cell := option Tool.

(** A function defined in that frame with [tool] as a free variable: it
    holds the cell, and reads it when it is called. *)
Definition Closure := Cell → Dict → Exn + Value.

(** What [StructuredTool.from_function] is given. *)
Record StructuredTool := {
  st_func : Closure;
  st_name : string;
  st_description : string;
  st_args_schema : Dict → Exn + Dict;
}.

(** [self._tools]: a dict, which keeps its keys in insertion order. *)
Definition ToolRegistry := list (string * Tool).

(** [ToolRegistry()] *)
Definition new : ToolRegistry := [].

(** [d[key] = tool]: a key the dict has keeps its place. *)
Fixpoint setitem (key : string) (tool : Tool) (d : ToolRegistry)
  : ToolRegistry :=
  match d with
  | [] => [(key, tool)]
  | (k, t) :: rest =>
      if String.eqb k key then (k, tool) :: rest
      else (k, t) :: setitem key tool rest
  end.

(** [d[key]] *)
Fixpoint getitem (key : string) (d : ToolRegistry) : option Tool :=
  match d with
  | [] => None
  | (k, t) :: rest => if String.eqb k key then Some t else getitem key rest
  end.

Definition register (tool : Tool) (reg : ToolRegistry) : ToolRegistry :=
  setitem (name tool) tool reg.

Definition get_tool (tool_name : string) (reg : ToolRegistry)
  : RegistryError + Tool :=
  match getitem tool_name reg with
  | None => inl (KeyError ("Tool not found: " +:+ tool_name))
  | Some tool => inr tool
  end.

Definition get_all_tools (reg : ToolRegistry) : list Tool := map snd reg.

Definition get_tool_names (reg : ToolRegistry) : list string := map fst reg.

(** [if result.error:] *)
Definition error_set (output : ToolOutput) : option string :=
  match error output with
  | Some message => if bool_decide (message = "") then None else Some message
  | None => None
  end.

(** The body of [execute_wrapper], with [tool] the value read from the
    cell. *)
Definition execute_wrapper_body (tool : Tool) (kwargs : Dict) : Exn + Value :=
  match input_schema tool kwargs with
  | inl e => inl e
  | inr input_data =>
      match execute tool input_data with
      | inl e => inl e
      | inr output =>
          match error_set output with
          | Some message => inl (Exception message)
          | None => inr (result output)
          end
      end
  end.

(** [async def execute_wrapper]: a call of it reads [tool] first;
    on an unbound cell Python raises a [NameError], whose text is that of
    Python 3.11. *)
Definition execute_wrapper : Closure :=
  λ cell kwargs,
    match cell with
    | Some tool => execute_wrapper_body tool kwargs
    | None =>
        inl (Exception
               ("cannot access free variable 'tool' where it is not "
                +:+ "associated with a value in enclosing scope"))
    end.

(** One iteration of [for tool in self._tools.values():]: [tool] is
    assigned, [execute_wrapper] is defined, and the [StructuredTool] is
    built from the name, description and schema [tool] has now and
    appended. *)
Definition to_langchain_tools_iter
    (frame : Cell * list StructuredTool) (tool : Tool)
  : Cell * list StructuredTool :=
  (Some tool,
   frame.2 ++ [{| st_func := execute_wrapper;
                  st_name := name tool;
                  st_description := description tool;
                  st_args_schema := input_schema tool |}]).

(** The frame of [to_langchain_tools] when its loop has ended: the cell of
    [tool] and the list [langchain_tools]. *)
Definition to_langchain_tools_frame (reg : ToolRegistry)
  : Cell * list StructuredTool :=
  foldl to_langchain_tools_iter (None, []) (get_all_tools reg).

(** [to_langchain_tools()] *)
Definition to_langchain_tools (reg : ToolRegistry) : list StructuredTool :=
  (to_langchain_tools_frame reg).2.

(** A call, with keyword arguments, of the function of one of the tools
    [to_langchain_tools()] returned: the cell is as the loop left it. *)
Definition call_func (reg : ToolRegistry) (st : StructuredTool)
    (kwargs : Dict) : Exn + Value :=
  st_func st (to_langchain_tools_frame reg).1 kwargs.

(** The registry after the tools were registered in order. *)
Definition registered (tools : list Tool) : ToolRegistry :=
  foldl (λ reg tool, register tool reg) new tools.

(** Every key of the registry is the name of its tool. *)
Definition keyed_by_name (reg : ToolRegistry) : Prop :=
  Forall (λ kt, kt.1 = name kt.2) reg.

End Registry.

End Tools.

(** ** Vocabulary of the further statements *)

(** [event] is of type [kind]. *)
Definition has_type (kind : string) (event : Dict) : bool :=
  match raw_type event with
  | VStr k => String.eqb k kind
  | _ => false
  end.

(** Every [tool_call] event of the list is followed at once by a
    [tool_result] or an [error] event. *)
Fixpoint answered (events : list Dict) : Prop :=
  match events with
  | [] => True
  | event :: rest =>
      (has_type "tool_call" event = true →
       match rest with
       | next :: _ => has_type "tool_result" next || has_type "error" next = true
       | [] => False
       end)
      ∧ answered rest
  end.

(** No tool execution of the run raises anything but an [Exception]. *)
Definition tools_return_or_fail (run : Agent.Run) : Prop :=
  ∀ n e, Agent.tool_outcome run n = inl e → is_Exception e = true.

(** The LangChain message of a message of a request. *)
Definition lc_message (m : ChatMessage) : Agent.Message :=
  match role m with
  | SYSTEM => Agent.SystemMessage (content m)
  | USER => Agent.HumanMessage (content m)
  | ASSISTANT => Agent.AIMessage (content m) []
  end.

(** The status [stream_chat_events] writes after a producer that ended with
    [fin], all its events forwarded. *)
Definition final_status (fin : ProducerEnd) : string :=
  match fin with
  | Exhausted => "completed"
  | Raises CancelledError => "cancelled"
  | Raises _ => "error"
  end.

(** A run of tool events that is complete: every [tool_call] event in it is
    answered and it does not end with one. *)
Definition closed_block (events : list Dict) : Prop :=
  answered events
  ∧ ∀ event, last events = Some event → has_type "tool_call" event = false.

(** [invoke] passes over [event]: it has a type, which is not [content]. *)
Definition silent (event : Dict) : Prop :=
  ∃ kind, dict_lookup "type" event = Some (VStr kind)
          ∧ String.eqb kind "content" = false.

(** [text1 + text2 + ...] *)
Definition join (texts : list string) : string := foldr String.append "" texts.

(** Two tools for the examples: they differ in what they execute. *)
Inductive ExampleTool := Calculator | DiceRoller.

#[export] Instance ExampleTool_BaseTool : Tools.BaseTool ExampleTool :=
  {| Tools.name := λ t, match t with
                        | Calculator => "calculator"
                        | DiceRoller => "dice_roller"
                        end;
     Tools.description := λ t, match t with
                               | Calculator => "Evaluates an expression"
                               | DiceRoller => "Rolls dice"
                               end;
     Tools.input_schema := λ _ kwargs, inr kwargs;
     Tools.execute := λ t _,
       inr {| Tools.result := match t with
                              | Calculator => VStr "4"
                              | DiceRoller => VStr "You rolled 6"
                              end;
              Tools.error := None |} |}.

(** A run of the agent with two tool calls, the second of which fails. *)
Definition example_agent_run : Agent.Run :=
  {| Agent.init_error := None;
     Agent.graph_events :=
       λ lc_messages,
         [Some lc_messages;
          Some (lc_messages
                ++ [Agent.AIMessage ""
                      [{| Agent.tc_name := "calculator";
                          Agent.tc_args := VDict [("expression", VStr "2 + 2")];
                          Agent.tc_id := "call-1" |};
                       {| Agent.tc_name := "calculator";
                          Agent.tc_args := VDict [("expression", VStr "1 / 0")];
                          Agent.tc_id := "call-2" |}]]);
          None;
          Some [Agent.AIMessage "2 + 2 is 4; " []];
          Some [Agent.AIMessage "1 / 0 is undefined." []]];
     Agent.graph_end := λ _, Exhausted;
     Agent.tool_outcome :=
       λ n, match n with
            | 0 => inr (VStr "4")
            | _ => inl (Exception "division by zero")
            end |}.

(** The texts Python 3.10 gives the [TypeError]s of a call of [stream]. *)
Definition example_TypeError_str (err : Agent.BindError) : string :=
  match err with
  | Agent.UnexpectedKeyword keyword =>
      "ChatAgent.stream() got an unexpected keyword argument '"
      +:+ keyword +:+ "'"
  | Agent.MultipleValues parameter =>
      "ChatAgent.stream() got multiple values for argument '"
      +:+ parameter +:+ "'"
  end.

(** A rendering of values for the examples. *)
Definition example_py_str (v : Value) : string :=
  match v with
  | VStr s => s
  | _ => "..."
  end.

(** ** Tactics *)

(** From [H : x ∈ [a; b; ...]], one goal for each member, [x] replaced by
    it. *)
Ltac each_member H :=
  repeat (apply elem_of_cons in H as [->|H]);
  [..| by apply elem_of_nil in H].

(** * Properties *)

(** ** The model on small inputs *)

Example greeting_stream :
  map type_and_data
    (stream_chat_events "subtask-0" greeting_run (example_posted true)).1.1
  = [("content", [("text", VStr "Hi")]); ("complete", [])]
  ∧ status_of "subtask-0" example_completed = Some "completed".
Proof. split; vm_compute; reflexivity. Qed.

Example cancelled_stream :
  let p := {| pending := pending greeting_run;
              ending := Raises CancelledError |} in
  let result := stream_chat_events "subtask-0" p (example_posted true) in
  map type_and_data result.1.1
  = [("content", [("text", VStr "Hi")]); ("cancelled", [])]
  ∧ result.1.2 = Propagated CancelledError
  ∧ status_of "subtask-0" result.2 = Some "cancelled".
Proof. split_and!; vm_compute; reflexivity. Qed.

Example rejected_event_stream :
  let p := {| pending := [[("type", VStr "progress"); ("data", VDict [])];
                          [("type", VStr "content"); ("data", VDict [])]];
              ending := Exhausted |} in
  let result := stream_chat_events "subtask-0" p (example_posted true) in
  map type_and_data result.1.1
  = [("error",
      [("message", VStr "1 validation error for ChatEvent event_type")])]
  ∧ result.1.2 = Returned
  ∧ status_of "subtask-0" result.2 = Some "error".
Proof. split_and!; vm_compute; reflexivity. Qed.

Example unknown_subtask :
  (get_session_status "subtask-7" (example_posted true)).1
  = Raise (HTTPException 404 "Subtask not found")
  ∧ (cancel_session "subtask-7" (example_posted true)).1
    = Raise (HTTPException 404 "Subtask not found").
Proof. split; vm_compute; reflexivity. Qed.

Example default_session_id :
  sess_session_id
    <$> active_sessions
          (start_chat (ChatRequest_of_body
                         {| body_messages := example_messages;
                            body_session_id := None; body_model := None;
                            body_max_tokens := None; body_tools := None;
                            body_stream := None; body_metadata := None |})
             example_world).2
        !! "subtask-0"
  = Some "session-1700000000".
Proof. vm_compute. reflexivity. Qed.

Example buffer_within_capacity :
  Streaming.stored_offsets
    (Streaming.publish_all five_chunks (Streaming.fresh 8)).2
  = [0; 1; 2; 3; 4].
Proof. reflexivity. Qed.

Example append_after_complete :
  let s := (Streaming.publish_all
              [{| Streaming.u_kind := Streaming.Complete;
                  Streaming.u_payload := [];
                  Streaming.u_timestamp := 0%Z |}]
              (Streaming.fresh 8)).2 in
  Streaming.append {| Streaming.u_kind := Streaming.Chunk;
                      Streaming.u_payload := [("text", VStr "late")];
                      Streaming.u_timestamp := 1%Z |} s
  = (inl Streaming.StreamCompletedError, s).
Proof. reflexivity. Qed.

(** ** The event buffer: offsets *)

Section BufferOffsets.
Import Streaming.

Lemma window_fresh cap : window (fresh cap).
Proof. repeat split; simpl; lia. Qed.

Lemma store_capacity ev b : capacity (store ev b) = capacity b.
Proof. unfold store. by case_decide. Qed.

Lemma append_refused u s e :
  (append u s).1 = inl e → (append u s).2 = s.
Proof. unfold append. by destruct (state s). Qed.

Lemma append_accepted u s ev :
  (append u s).1 = inr ev →
  ev = stamp (next_offset s) u
  ∧ buffer (append u s).2 = store ev (buffer s)
  ∧ next_offset (append u s).2 = S (next_offset s).
Proof.
  unfold append. destruct (state s); simpl; intros [= <-]; done.
Qed.

Lemma store_window s u s' :
  window s →
  buffer s' = store (stamp (next_offset s) u) (buffer s) →
  next_offset s' = S (next_offset s) →
  window s'.
Proof.
  intros (Hoff & Hsum & Hlen) Hbuf Hnext.
  unfold window, stored_offsets in *. rewrite Hbuf, Hnext. unfold store.
  set (b := buffer s) in *. set (evs := events b) in *.
  assert (Hall : map offset (evs ++ [stamp (next_offset s) u])
                 = seq (base_offset b) (S (length evs))).
  { rewrite map_app, Hoff, seq_S. simpl. by rewrite Hsum. }
  assert (Hl : length (evs ++ [stamp (next_offset s) u]) = S (length evs)).
  { rewrite length_app. simpl. lia. }
  case_decide as Hcap; cbn [capacity base_offset events].
  - rewrite Hl in Hcap.
    destruct (evs ++ [stamp (next_offset s) u]) as [|ev0 evs'] eqn:Heq;
      [simpl in Hl; lia|].
    simpl in Hall, Hl. cbn [tail]. injection Hall as _ Hall. injection Hl as Hl.
    rewrite Hall, Hl. repeat split; lia.
  - rewrite Hl in Hcap |- *. rewrite Hall. repeat split; lia.
Qed.

Lemma append_window u s : window s → window (append u s).2.
Proof.
  intros Hw. destruct (append u s).1 as [e|ev] eqn:Hr.
  - by rewrite (append_refused _ _ _ Hr).
  - destruct (append_accepted _ _ _ Hr) as (-> & Hbuf & Hnext).
    by eapply store_window.
Qed.

Lemma append_keeps_capacity u s :
  capacity (buffer (append u s).2) = capacity (buffer s).
Proof.
  destruct (append u s).1 as [e|ev] eqn:Hr.
  - by rewrite (append_refused _ _ _ Hr).
  - destruct (append_accepted _ _ _ Hr) as (_ & -> & _). apply store_capacity.
Qed.

Lemma publish_all_offsets us s :
  window s →
  let n := length (assigned_offsets (publish_all us s).1) in
  assigned_offsets (publish_all us s).1 = seq (next_offset s) n
  ∧ next_offset (publish_all us s).2 = next_offset s + n
  ∧ capacity (buffer (publish_all us s).2) = capacity (buffer s)
  ∧ window (publish_all us s).2.
Proof.
  revert s. induction us as [|u us IH]; intros s Hw; simpl.
  - split_and!; [done | lia | done | done].
  - pose proof (append_window u s Hw) as Hw1.
    pose proof (append_keeps_capacity u s) as Hcap.
    destruct (append u s) as [r s1] eqn:Happ. simpl in Hw1, Hcap.
    specialize (IH s1 Hw1). simpl in IH.
    destruct (publish_all us s1) as [rs s2] eqn:Hpub. simpl in IH |- *.
    destruct IH as (Hseq & Hnext & Hcap2 & Hw2).
    destruct r as [e|ev]; simpl.
    + assert (s1 = s) as ->.
      { rewrite <- (append_refused u s e); by rewrite Happ. }
      split_and!; done.
    + destruct (append_accepted u s ev) as (-> & _ & Hn); [by rewrite Happ|].
      rewrite Happ in Hn. simpl in Hn. rewrite Hn in Hseq, Hnext.
      unfold assigned_offsets in *. simpl.
      split_and!; [by f_equal | lia | congruence | done].
Qed.

End BufferOffsets.

(** ** What the primitives do to the world *)

Section WorldEffects.

Lemma only_ticks_refl w : only_ticks w w.
Proof. by repeat split. Qed.

Lemma datetime_now_ticks w : only_ticks w (datetime_now w).2.
Proof. by repeat split. Qed.

Lemma alter_absent (f : Session → Session) (k : string) (m : gmap string Session) :
  k ∉ dom m → alter f k m = m.
Proof.
  intros Hk. apply map_eq. intros i. rewrite lookup_alter.
  case_decide as Hi; [|done]. subst i.
  apply not_elem_of_dom in Hk. by rewrite Hk.
Qed.

Lemma mark_status_sets subtask_id status w :
  (mark_status subtask_id status w).1 = Return ()
  ∧ status_set subtask_id status w (mark_status subtask_id status w).2.
Proof.
  unfold mark_status, get_sessions, assign_status, mbind, Py_bind, mret, Py_ret.
  case_bool_decide as Hin; simpl.
  - by repeat split.
  - repeat split; try done. simpl. by rewrite alter_absent.
Qed.

Lemma ChatEvent_new_accepts kind d w :
  in_literal kind ChatEvent_event_type_literal = true →
  ChatEvent_new (VStr kind) (VDict d) w
  = (Return {| event_type := kind; data := d;
               timestamp := now_src w (now_calls w) |},
     (datetime_now w).2).
Proof.
  intros Hk. unfold ChatEvent_new, ChatEvent_validate. by rewrite Hk.
Qed.

Lemma ChatEvent_new_returns type_ data_ w ev w1 :
  ChatEvent_new type_ data_ w = (Return ev, w1) →
  ChatEvent_validate type_ data_ = inr (event_type ev, data ev)
  ∧ w1 = (datetime_now w).2.
Proof.
  unfold ChatEvent_new.
  destruct (ChatEvent_validate type_ data_) as [e|[kind d]]; [done|].
  by intros [= <- <-].
Qed.

Lemma ChatEvent_new_raises type_ data_ w e w1 :
  ChatEvent_new type_ data_ w = (Raise e, w1) →
  ChatEvent_validate type_ data_ = inl e ∧ w1 = w.
Proof.
  unfold ChatEvent_new.
  destruct (ChatEvent_validate type_ data_) as [e'|[kind d]]; [|done].
  by intros [= <- <-].
Qed.

Lemma ChatEvent_validate_inr type_ data_ kind d :
  ChatEvent_validate type_ data_ = inr (kind, d) →
  type_ = VStr kind ∧ data_ = VDict d
  ∧ in_literal kind ChatEvent_event_type_literal = true.
Proof.
  unfold ChatEvent_validate. destruct type_ as [| | |s| | |]; try done.
  destruct (in_literal s _) eqn:Hs; [|done].
  destruct data_; try done. by intros [= <- <-].
Qed.

End WorldEffects.

(** ** The event sequence of a stream *)

Section StreamRun.

Context (subtask_id : string).

Lemma status_set_after_ticks status w w1 w2 :
  only_ticks w w1 → status_set subtask_id status w1 w2 →
  status_set subtask_id status w w2.
Proof.
  intros (Ha & Hn & Hu & Hc) (Ha' & Hn' & Hu' & Hc').
  repeat split; congruence.
Qed.

Lemma status_set_then_ticks status w w1 w2 :
  status_set subtask_id status w w1 → only_ticks w1 w2 →
  status_set subtask_id status w w2.
Proof.
  intros (Ha & Hn & Hu & Hc) (Ha' & Hn' & Hu' & Hc').
  repeat split; congruence.
Qed.

Lemma yield_event_accepts kind d pc w :
  in_literal kind ChatEvent_event_type_literal = true →
  yield_event (VStr kind) (VDict d) pc w
  = (Yield {| event_type := kind; data := d;
              timestamp := now_src w (now_calls w) |},
     pc, (datetime_now w).2).
Proof. intros Hk. unfold yield_event. by rewrite ChatEvent_new_accepts. Qed.

Lemma drain_step {A} (next : GenPc → World → GenResult A * GenPc * World)
    fuel pc w :
  drain next (S fuel) pc w
  = match next pc w with
    | (Yield ev, pc1, w1) =>
        let '(evs, fin, w2) := drain next fuel pc1 w1 in (ev :: evs, fin, w2)
    | (StopAsyncIteration, _, w1) => ([], Returned, w1)
    | (Raised e, _, w1) => ([], Propagated e, w1)
    end.
Proof. reflexivity. Qed.

Lemma except_run e w fuel :
  ∃ last pc w1,
    stream_chat_events_except subtask_id e w = (Yield last, pc, w1)
    ∧ type_and_data last = (closing (Raises e)).1.1
    ∧ status_set subtask_id (closing (Raises e)).1.2 w w1
    ∧ drain (stream_chat_events_next subtask_id) (S fuel) pc w1
      = ([], (closing (Raises e)).2, w1).
Proof.
  unfold stream_chat_events_except.
  destruct e; simpl;
    rewrite yield_event_accepts by done;
    (do 3 eexists; split_and!;
      [ reflexivity | reflexivity
      | eapply status_set_then_ticks;
        [ apply mark_status_sets | apply datetime_now_ticks ]
      | reflexivity ]).
Qed.

Lemma stream_run events fin w :
  ∃ forwarded last w',
    stream_chat_events subtask_id {| pending := events; ending := fin |} w
    = (forwarded ++ [last], (closing (loop_trace events fin).2).2, w')
    ∧ map type_and_data forwarded = (loop_trace events fin).1
    ∧ type_and_data last = (closing (loop_trace events fin).2).1.1
    ∧ status_set subtask_id (closing (loop_trace events fin).2).1.2 w w'.
Proof.
  unfold stream_chat_events, resumptions. simpl pending.
  revert w. induction events as [|event rest IH]; intros w.
  - destruct fin as [|e].
    + exists [], {| event_type := "complete"; data := [];
                    timestamp := now_src w (now_calls w) |}.
      eexists. split_and!; [reflexivity | done | done |].
      eapply status_set_after_ticks;
        [apply datetime_now_ticks | apply mark_status_sets].
    + destruct (except_run e w 0) as (last & pc & w1 & Hx & Hl & Hs & Hd).
      exists [], last, w1. split_and!; try done.
      change (length [] + 2) with 2. rewrite drain_step.
      change (stream_chat_events_next subtask_id
                (InLoop {| pending := []; ending := Raises e |}) w)
        with (stream_chat_events_except subtask_id e w).
      rewrite Hx. by rewrite Hd.
  - cbn [length Nat.add loop_trace]. rewrite drain_step.
    cbn [stream_chat_events_next pending ending].
    fold (raw_type event) (raw_data event).
    destruct (ChatEvent_new (raw_type event) (raw_data event) w)
      as [[ev|e] w1] eqn:Hnew.
    + apply ChatEvent_new_returns in Hnew as [Hv ->]. rewrite Hv.
      destruct (IH (datetime_now w).2) as (forwarded & last & w' & Hd & Hm & Hl & Hs).
      simpl ending in Hd. rewrite Hd.
      destruct (loop_trace rest fin) as [kds fin'] eqn:Htr. simpl in *.
      exists (ev :: forwarded), last, w'. split_and!; try done.
      by rewrite <- Hm.
    + apply ChatEvent_new_raises in Hnew as [Hv ->]. rewrite Hv.
      destruct (except_run e w (length rest + 1))
        as (last & pc & w1 & Hx & Hl & Hs & Hd).
      rewrite Hx. replace (length rest + 2) with (S (length rest + 1)) by lia.
      rewrite Hd. by exists [], last, w1.
Qed.

End StreamRun.

(** ** What the handlers do *)

Section Handlers.

Lemma session_id_or_default_run request w :
  ∃ sid, (session_id_or_default request w).1 = Return sid
         ∧ only_ticks w (session_id_or_default request w).2
         ∧ (∀ s, session_id request = Some s → s ≠ "" → sid = s).
Proof.
  unfold session_id_or_default.
  destruct (session_id request) as [s|]; [case_bool_decide as Hs|];
    eexists; (split_and!; [reflexivity | by repeat split | ]).
  - intros ? [= <-] ?. done.
  - by intros ? [= <-] ?.
  - done.
Qed.

Lemma start_chat_run request w :
  ∃ sid created_at response w',
    start_chat request w = (Return response, w')
    ∧ active_sessions w'
      = <[uuid_src w (uuid_calls w) :=
            {| sess_session_id := sid; sess_status := "running";
               sess_created_at := created_at;
               sess_messages := messages request |}]> (active_sessions w)
    ∧ uuid_src w' = uuid_src w
    ∧ uuid_calls w' = S (uuid_calls w)
    ∧ if stream request then
        response = EventSourceResponse
                     {| gen_messages := message_dicts (messages request);
                        gen_session_id := sid;
                        gen_subtask_id := uuid_src w (uuid_calls w) |}
                     [("X-Subtask-ID", uuid_src w (uuid_calls w))]
      else
        ∃ t, response = JSONResponse
                          {| resp_subtask_id := uuid_src w (uuid_calls w);
                             resp_session_id := sid;
                             resp_status := "created";
                             resp_created_at := t |}.
Proof.
  unfold start_chat, mbind, Py_bind. simpl.
  set (w1 := (uuid4_str w).2).
  destruct (session_id_or_default_run request
              {| active_sessions := active_sessions w; now_src := now_src w;
                 now_calls := now_calls w; uuid_src := uuid_src w;
                 uuid_calls := S (uuid_calls w) |})
    as (sid & Hsid & (Ha & Hn & Hu & Hc) & _).
  destruct (session_id_or_default request _) as [[sid'|e] w2]; [|done].
  simpl in *. injection Hsid as ->.
  destruct (stream request); simpl;
    do 4 eexists; (split_and!; [reflexivity | by rewrite Ha | done | done |]);
    [done | by eexists].
Qed.

Lemma get_session_status_run subtask_id w :
  match active_sessions w !! subtask_id with
  | None =>
      get_session_status subtask_id w
      = (Raise (HTTPException 404 "Subtask not found"), w)
  | Some session =>
      if in_literal (sess_status session) SessionStatus_status_literal then
        get_session_status subtask_id w
        = (Return {| ss_subtask_id := subtask_id;
                     ss_session_id := sess_session_id session;
                     ss_status := sess_status session;
                     ss_created_at := sess_created_at session;
                     ss_updated_at := Some (now_src w (now_calls w));
                     ss_message_count :=
                       Z.of_nat (length (sess_messages session));
                     ss_metadata := None |},
           (datetime_now w).2)
      else
        get_session_status subtask_id w
        = (Raise (ValidationError "SessionStatus" "status"),
           (datetime_now w).2)
  end.
Proof.
  unfold get_session_status, get_sessions, mbind, Py_bind. cbn -[in_literal].
  destruct (active_sessions w !! subtask_id) as [session|]; [|done].
  unfold SessionStatus_new. cbn -[in_literal].
  by destruct (in_literal (sess_status session) _).
Qed.

Lemma cancel_session_run subtask_id w :
  match active_sessions w !! subtask_id with
  | None =>
      cancel_session subtask_id w
      = (Raise (HTTPException 404 "Subtask not found"), w)
  | Some session =>
      cancel_session subtask_id w
      = (Return [("status", VStr "cancelled");
                 ("subtask_id", VStr subtask_id)],
         with_sessions
           (<[subtask_id := set_status "cancelled" session]>
              (active_sessions w)) w)
  end.
Proof.
  unfold cancel_session, get_sessions, assign_status, mbind, Py_bind. simpl.
  destruct (active_sessions w !! subtask_id) as [session|] eqn:Hs.
  - rewrite bool_decide_eq_true_2 by (apply elem_of_dom; eauto).
    simpl. do 2 f_equal. unfold with_sessions. f_equal.
    apply map_eq. intros i. rewrite lookup_alter, lookup_insert.
    case_decide as Hi; [subst i; by rewrite Hs | done].
  - rewrite bool_decide_eq_false_2 by (by apply not_elem_of_dom). done.
Qed.

Lemma next_world subtask_id pc w :
  only_ticks w (stream_chat_events_next subtask_id pc w).2
  ∨ ∃ status, status ∈ ["completed"; "cancelled"; "error"]
              ∧ status_set subtask_id status w
                  (stream_chat_events_next subtask_id pc w).2.
Proof.
  assert (Hx : ∀ e w0, only_ticks w w0 →
    ∃ status, status ∈ ["completed"; "cancelled"; "error"]
      ∧ status_set subtask_id status w (stream_chat_events_except subtask_id e w0).2).
  { intros e w0 Hw0.
    destruct (except_run subtask_id e w0 0) as (last & pc' & w1 & -> & _ & Hs & _).
    simpl. exists (closing (Raises e)).1.2. split.
    - destruct e; simpl; set_solver.
    - by eapply status_set_after_ticks. }
  destruct pc as [p| | | |]; simpl.
  - destruct (pending p) as [|event rest].
    + destruct (ending p) as [|e].
      * left. rewrite yield_event_accepts by done. apply datetime_now_ticks.
      * right. apply Hx, only_ticks_refl.
    + destruct (ChatEvent_new _ _ w) as [[ev|e] w1] eqn:Hnew.
      * left. apply ChatEvent_new_returns in Hnew as [_ ->].
        apply datetime_now_ticks.
      * right. apply ChatEvent_new_raises in Hnew as [_ ->].
        apply Hx, only_ticks_refl.
  - right. exists "completed". split; [set_solver | apply mark_status_sets].
  - left. apply only_ticks_refl.
  - left. apply only_ticks_refl.
  - left. apply only_ticks_refl.
Qed.

End Handlers.

(** ** Runs of the server: what stays true of a session *)

Section Runs.

Lemma evolves_refl s : evolves s s.
Proof. split_and!; auto. Qed.

Lemma evolves_trans s1 s2 s3 : evolves s1 s2 → evolves s2 s3 → evolves s1 s3.
Proof.
  intros (Ha & Hb & Hc & Hd) (Ha' & Hb' & Hc' & Hd').
  split_and!; try congruence.
  destruct Hd' as [Heq|Ht]; [|by right].
  destruct Hd as [Heq'|Ht']; [left; congruence | right; by rewrite Heq].
Qed.

Lemma evolves_set_status status s :
  status ∈ ["completed"; "cancelled"; "error"] →
  evolves s (set_status status s).
Proof.
  intros Hin. split_and!; try done. right. simpl.
  each_member Hin; reflexivity.
Qed.

Lemma step_oracle op w :
  uuid_src (step op w) = uuid_src w ∧ uuid_calls w ≤ uuid_calls (step op w).
Proof.
  destruct op as [request|k|k|k pc]; simpl.
  - destruct (start_chat_run request w)
      as (sid & t & response & w' & -> & _ & Hu & Hc & _).
    simpl. split; [done | lia].
  - pose proof (get_session_status_run k w) as H.
    destruct (active_sessions w !! k) as [s|];
      [destruct (in_literal _ _)|]; by rewrite H.
  - pose proof (cancel_session_run k w) as H.
    destruct (active_sessions w !! k) as [s|]; by rewrite H.
  - destruct (next_world k pc w) as [(_ & _ & -> & ->)|(st & _ & _ & _ & -> & ->)];
      done.
Qed.

Context (subtask_id : string).

Lemma never_drawn_again_step op w :
  never_drawn_again subtask_id w → never_drawn_again subtask_id (step op w).
Proof.
  intros Hn k Hk. destruct (step_oracle op w) as [-> Hle]. apply Hn. lia.
Qed.

Lemma step_session op w s :
  never_drawn_again subtask_id w →
  active_sessions w !! subtask_id = Some s →
  ∃ s', active_sessions (step op w) !! subtask_id = Some s' ∧ evolves s s'.
Proof.
  intros Hn Hs. destruct op as [request|k|k|k pc]; simpl.
  - destruct (start_chat_run request w)
      as (sid & t & response & w' & -> & Ha & _).
    simpl. rewrite Ha. exists s. split; [|apply evolves_refl].
    rewrite lookup_insert_ne; [done|]. apply Hn. lia.
  - exists s. split; [|apply evolves_refl].
    pose proof (get_session_status_run k w) as H.
    destruct (active_sessions w !! k) as [s0|];
      [destruct (in_literal _ _)|]; by rewrite H.
  - pose proof (cancel_session_run k w) as H.
    destruct (active_sessions w !! k) as [s0|] eqn:Hk; rewrite H; simpl.
    + destruct (decide (k = subtask_id)) as [->|Hne].
      * rewrite lookup_insert_eq. eexists; split; [done|].
        assert (s0 = s) as -> by congruence.
        apply evolves_set_status. set_solver.
      * rewrite lookup_insert_ne by done. eauto using evolves_refl.
    + eauto using evolves_refl.
  - destruct (next_world k pc w) as [(-> & _)|(st & Hst & -> & _)].
    + eauto using evolves_refl.
    + rewrite lookup_alter. case_decide as Hk.
      * subst k. rewrite Hs. simpl. eauto using evolves_set_status.
      * eauto using evolves_refl.
Qed.

Lemma run_session ops w s :
  never_drawn_again subtask_id w →
  active_sessions w !! subtask_id = Some s →
  ∃ s', active_sessions (run ops w) !! subtask_id = Some s' ∧ evolves s s'.
Proof.
  revert w s. induction ops as [|op ops IH]; intros w s Hn Hs.
  - eauto using evolves_refl.
  - destruct (step_session op w s Hn Hs) as (s1 & Hs1 & He1).
    destruct (IH (step op w) s1) as (s2 & Hs2 & He2);
      [by apply never_drawn_again_step | done |].
    exists s2. split; [done | by eapply evolves_trans].
Qed.

Lemma step_statuses_valid op w : statuses_valid w → statuses_valid (step op w).
Proof.
  intros Hv. destruct op as [request|k|k|k pc]; simpl.
  - destruct (start_chat_run request w)
      as (sid & t & response & w' & -> & Ha & _).
    intros i s. simpl. rewrite Ha, lookup_insert.
    case_decide; [by intros [= <-] | apply Hv].
  - pose proof (get_session_status_run k w) as H.
    destruct (active_sessions w !! k) as [s0|];
      [destruct (in_literal _ _)|]; by rewrite H.
  - pose proof (cancel_session_run k w) as H.
    destruct (active_sessions w !! k) as [s0|] eqn:Hk; rewrite H; [|done].
    intros i s. cbn -[in_literal]. rewrite lookup_insert.
    case_decide; [intros [= <-]; reflexivity | apply Hv].
  - destruct (next_world k pc w) as [(Ha & _)|(st & Hst & Ha & _)];
      intros i s; rewrite Ha; [apply Hv|].
    rewrite lookup_alter. case_decide; [|apply Hv].
    destruct (active_sessions w !! k) as [s0|]; [|done].
    intros [= <-]. cbn [set_status sess_status].
    each_member Hst; reflexivity.
Qed.

Lemma reachable_statuses_valid w : reachable w → statuses_valid w.
Proof.
  induction 1 as [w Hempty|op w _ IH].
  - intros i s. by rewrite Hempty, lookup_empty.
  - by apply step_statuses_valid.
Qed.

End Runs.

(** ** C4: offsets of the event buffer *)

Lemma publish_all_running us s :
  Streaming.state s = Streaming.PENDING ∨ Streaming.state s = Streaming.RUNNING →
  Forall (λ u, Streaming.state_after (Streaming.u_kind u) = Streaming.RUNNING) us →
  length (Streaming.assigned_offsets (Streaming.publish_all us s).1) = length us.
Proof.
  intros Hs Hus. revert s Hs.
  induction Hus as [|u us Hu _ IH]; intros s Hs; [done|].
  simpl. unfold Streaming.append.
  destruct Hs as [-> | ->]; simpl;
    (specialize (IH {| Streaming.state :=
                         Streaming.state_after (Streaming.u_kind u);
                       Streaming.buffer :=
                         Streaming.store
                           (Streaming.stamp (Streaming.next_offset s) u)
                           (Streaming.buffer s);
                       Streaming.next_offset := S (Streaming.next_offset s) |}
                    (or_intror Hu));
     destruct (Streaming.publish_all us _) as [rs s2]; simpl in *;
     by rewrite IH).
Qed.

(** C4, as stated, fails on the buffer the specification describes: with a
    capacity of 3, after 5 chunks were published to a fresh session the
    offsets 0..4 were assigned, but the buffer stores 2, 3, 4 only, not
    0..4. *)
Lemma stored_offsets_after_eviction :
  Streaming.assigned_offsets
    (Streaming.publish_all five_chunks (Streaming.fresh 3)).1
  = [0; 1; 2; 3; 4]
  ∧ Streaming.stored_offsets
      (Streaming.publish_all five_chunks (Streaming.fresh 3)).2
    = [2; 3; 4]
  ∧ Streaming.stored_offsets
      (Streaming.publish_all five_chunks (Streaming.fresh 3)).2
    ≠ seq 0 (length five_chunks).
Proof. split_and!; [reflexivity | reflexivity | discriminate]. Qed.

(** C4, amended: for every sequence of events published to a fresh session of
    capacity [cap], of which [n] were accepted, the offsets assigned at append
    time are exactly 0..n-1, and the offsets stored in the buffer are the last
    [min n cap] of them, (n - cap)..n-1: gap-free, strictly increasing, without
    duplicates, and equal to 0..n-1 as long as [n] does not exceed the
    capacity. All events are accepted when none is of a terminal kind. *)
Theorem stored_offsets_window cap us :
  let published := Streaming.publish_all us (Streaming.fresh cap) in
  let n := length (Streaming.assigned_offsets published.1) in
  Streaming.assigned_offsets published.1 = seq 0 n
  ∧ Streaming.stored_offsets published.2 = seq (n - cap) (n `min` cap)
  ∧ NoDup (Streaming.stored_offsets published.2)
  ∧ (n ≤ cap → Streaming.stored_offsets published.2 = seq 0 n)
  ∧ (Forall (λ u, Streaming.state_after (Streaming.u_kind u)
                  = Streaming.RUNNING) us → n = length us).
Proof.
  intros published n.
  destruct (publish_all_offsets us (Streaming.fresh cap) (window_fresh cap))
    as (Hseq & Hnext & Hcap & Hoff & Hsum & Hlen).
  fold published in Hseq, Hnext, Hcap, Hoff, Hsum, Hlen.
  fold n in Hseq, Hnext. simpl in Hseq, Hnext, Hcap.
  rewrite Hcap, Hnext in Hlen. rewrite Hnext in Hsum.
  assert (Hstored : Streaming.stored_offsets published.2
                    = seq (n - cap) (n `min` cap)).
  { rewrite Hoff, Hlen. f_equal. lia. }
  split_and!.
  - done.
  - done.
  - rewrite Hstored. apply NoDup_ListNoDup, List.seq_NoDup.
  - intros Hle. rewrite Hstored. f_equal; lia.
  - intros Hus. apply publish_all_running; [by left | done].
Qed.

(** ** C1, C2, C5: the events of a stream *)

Lemma loop_trace_forwards events fin forwarded :
  map type_and_data forwarded = (loop_trace events fin).1 →
  Forall2 forwards forwarded (take (length forwarded) events).
Proof.
  revert forwarded. induction events as [|event rest IH]; intros forwarded.
  - simpl. intros Hm. apply map_eq_nil in Hm as ->. constructor.
  - simpl.
    destruct (ChatEvent_validate (raw_type event) (raw_data event))
      as [e|[kind d]] eqn:Hv.
    + simpl. intros Hm. apply map_eq_nil in Hm as ->. constructor.
    + destruct (loop_trace rest fin) as [kds fin'] eqn:Htr. simpl.
      destruct forwarded as [|ev forwarded]; [done|].
      simpl. intros [= Hk Hd Hm].
      apply ChatEvent_validate_inr in Hv as (Ht & Hdat & _).
      constructor; [split; congruence|].
      by apply IH.
Qed.

Lemma loop_trace_well_formed events fin :
  Forall well_formed events →
  (loop_trace events fin).2 = fin
  ∧ length (loop_trace events fin).1 = length events.
Proof.
  induction 1 as [|event rest (kind & d & Hv) _ [IH1 IH2]]; [done|].
  simpl. rewrite Hv.
  destruct (loop_trace rest fin) as [kds fin']. simpl in *.
  split; congruence.
Qed.

Lemma ChatEvent_validate_inl type_ data_ e :
  ChatEvent_validate type_ data_ = inl e →
  ∃ field, e = ValidationError "ChatEvent" field.
Proof.
  unfold ChatEvent_validate. destruct type_ as [| | |s| | |];
    try (intros [= <-]; eauto).
  destruct (in_literal s _); [|intros [= <-]; eauto].
  destruct data_; intros [= <-]; eauto.
Qed.

Lemma loop_trace_end events fin :
  (length (loop_trace events fin).1 = length events
   ∧ (loop_trace events fin).2 = fin)
  ∨ (length (loop_trace events fin).1 < length events
     ∧ ∃ field, (loop_trace events fin).2
                = Raises (ValidationError "ChatEvent" field)).
Proof.
  induction events as [|event rest IH]; [by left|].
  simpl.
  destruct (ChatEvent_validate (raw_type event) (raw_data event))
    as [e|kd] eqn:Hv.
  - right. apply ChatEvent_validate_inl in Hv as [field ->].
    simpl. split; [lia | eauto].
  - destruct (loop_trace rest fin) as [kds fin']. simpl in *.
    destruct IH as [[Hlen Hfin]|[Hlen Hfin]]; [left | right]; split;
      (lia || done).
Qed.

Lemma loop_trace_rejected before bad rest fin e :
  Forall well_formed before →
  ChatEvent_validate (raw_type bad) (raw_data bad) = inl e →
  (loop_trace (before ++ bad :: rest) fin).2 = Raises e
  ∧ length (loop_trace (before ++ bad :: rest) fin).1 = length before.
Proof.
  intros Hwf Hbad.
  induction Hwf as [|event before (kind & d & Hv) _ [IH1 IH2]]; simpl.
  - by rewrite Hbad.
  - rewrite Hv.
    destruct (loop_trace (before ++ bad :: rest) fin) as [kds fin'].
    simpl in *. split; congruence.
Qed.

Lemma loop_trace_split (events : list Dict) :
  Forall well_formed events
  ∨ ∃ before bad rest e,
      events = before ++ bad :: rest
      ∧ Forall well_formed before
      ∧ ChatEvent_validate (raw_type bad) (raw_data bad) = inl e.
Proof.
  induction events as [|event events IH]; [left; constructor|].
  destruct (ChatEvent_validate (raw_type event) (raw_data event))
    as [e|[kind d]] eqn:Hv.
  - right. exists [], event, events, e. by split_and!.
  - assert (Hwf : well_formed event) by (by exists kind, d).
    destruct IH as [Hall|(before & bad & rest & e & -> & Hbefore & Hbad)].
    + left. by constructor.
    + right. exists (event :: before), bad, rest, e.
      split_and!; [done | by constructor | done].
Qed.

Lemma closing_type fin : (closing fin).1.1.1 ∈ closing_types.
Proof. destruct fin as [|[]]; simpl; set_solver. Qed.

Lemma closing_ends fin : (closing fin).2 ≠ Unfinished.
Proof. by destruct fin as [|[]]. Qed.

Lemma forwarded_types forwarded events (banned : list string) :
  Forall2 forwards forwarded events →
  Forall (λ event, raw_type event ∉ VStr <$> banned) events →
  Forall (λ ev, event_type ev ∉ banned) forwarded.
Proof.
  induction 1 as [|ev event forwarded events [Ht _] _ IH]; [constructor|].
  intros Hall. apply Forall_cons in Hall as [Hev Hall].
  constructor; [|by apply IH].
  intros Hin. apply Hev. rewrite Ht. by apply list_elem_of_fmap_2.
Qed.

Lemma drain_frames subtask_id fuel pc w :
  drain (event_generator_next subtask_id) fuel pc w
  = let '(evs, fin, w') :=
      drain (stream_chat_events_next subtask_id) fuel pc w in
    (map frame_of evs, fin, w').
Proof.
  revert pc w. induction fuel as [|fuel IH]; intros pc w; [done|].
  rewrite !drain_step. unfold event_generator_next.
  destruct (stream_chat_events_next subtask_id pc w) as [[[ev| |e] pc1] w1];
    [|done|done].
  rewrite IH.
  by destruct (drain (stream_chat_events_next subtask_id) fuel pc1 w1)
    as [[evs fin] w2].
Qed.

(** C1, as stated, fails. [stream_chat_events] forwards every dict of the
    producer that [ChatEvent] accepts, whatever its type, and goes on reading
    the producer; [error] is one of the accepted types. On a producer that
    reports a failure as an [error] dict and goes on, the stream carries
    [error], then [content], then [complete]: the [error] event is followed
    by further events, and the stream holds two events of a terminal
    type. *)
Lemma stream_error_event_not_last :
  map type_and_data
    (stream_chat_events "subtask-0" tool_failure_run (example_posted true)).1.1
  = [("tool_call", [("tool", VStr "calculator");
                    ("input", VDict [("expression", VStr "2 +")])]);
     ("error", [("message", VStr "tool failed")]);
     ("content", [("text", VStr "I could not compute that.")]);
     ("complete", [])]
  ∧ (stream_chat_events "subtask-0" tool_failure_run (example_posted true)).1.2
    = Returned.
Proof. split; reflexivity. Qed.

(** C1, amended: every stream read to its end terminates, and its last event
    is the one event [stream_chat_events] emits by itself. When [ChatEvent]
    accepts every dict of the producer, all of them are forwarded in order
    and the last event is [complete] when the producer returned,
    [cancelled] when the task was cancelled (the [CancelledError] is then
    raised again), and [error] with the text of the exception when the
    producer raised one. Otherwise the dicts before the first one that
    [ChatEvent] refuses are forwarded, and the last event is [error] with the
    text of that validation error. The forwarded events carry the types of
    the producer's dicts: an [error] dict the producer yields is forwarded
    like the others and may be followed by further events, and the stream
    has no [complete], [cancelled] or [error] event before its last one when
    the producer yields no dict of these types. *)
Theorem stream_ends_with_closing_event subtask_id p w :
  ∃ forwarded last fin w',
    stream_chat_events subtask_id p w = (forwarded ++ [last], fin, w')
    ∧ fin ≠ Unfinished
    ∧ event_type last ∈ closing_types
    ∧ Forall2 forwards forwarded (take (length forwarded) (pending p))
    ∧ ((Forall well_formed (pending p)
        ∧ Forall2 forwards forwarded (pending p)
        ∧ (type_and_data last, fin)
          = match ending p with
            | Exhausted => (("complete", []), Returned)
            | Raises CancelledError =>
                (("cancelled", []), Propagated CancelledError)
            | Raises e =>
                (("error", [("message", VStr (str_exn e))]), Returned)
            end)
       ∨ (∃ before bad rest e,
            pending p = before ++ bad :: rest
            ∧ Forall well_formed before
            ∧ ChatEvent_validate (raw_type bad) (raw_data bad) = inl e
            ∧ Forall2 forwards forwarded before
            ∧ (type_and_data last, fin)
              = (("error", [("message", VStr (str_exn e))]), Returned)))
    ∧ ∀ banned : list string,
        Forall (λ event, raw_type event ∉ VStr <$> banned) (pending p) →
        Forall (λ ev, event_type ev ∉ banned) forwarded.
Proof.
  destruct p as [events fin0].
  destruct (stream_run subtask_id events fin0 w)
    as (forwarded & last & w' & Hrun & Hm & Hl & _).
  exists forwarded, last, (closing (loop_trace events fin0).2).2, w'.
  pose proof (loop_trace_forwards _ _ _ Hm) as Hfw.
  assert (Hlast : event_type last = (closing (loop_trace events fin0).2).1.1.1)
    by (by rewrite <- Hl).
  assert (Hlen : length forwarded = length (loop_trace events fin0).1)
    by (by rewrite <- Hm, length_map).
  split_and!.
  - done.
  - apply closing_ends.
  - rewrite Hlast. apply closing_type.
  - done.
  - cbn [pending ending].
    destruct (loop_trace_split events)
      as [Hall|(before & bad & rest & e & -> & Hbefore & Hbad)].
    + left. destruct (loop_trace_well_formed events fin0 Hall) as [Hfin Hn].
      rewrite Hfin in Hl |- *. split_and!; [done | |].
      * rewrite take_ge in Hfw; [done | lia].
      * rewrite Hl. by destruct fin0 as [|[]].
    + right. exists before, bad, rest, e.
      destruct (loop_trace_rejected before bad rest fin0 e Hbefore Hbad)
        as [Hfin Hn].
      rewrite Hfin in Hl |- *. split_and!; [done | done | done | |].
      * rewrite Hlen, Hn in Hfw. by rewrite take_app_length in Hfw.
      * rewrite Hl. by destruct (ChatEvent_validate_inl _ _ _ Hbad) as [? ->].
  - simpl. intros banned Hall. eapply forwarded_types; [done|].
    by apply Forall_take.
Qed.

(** C2, as stated, fails: the data field of a frame is the dump of the whole
    [ChatEvent], which holds the event type and the timestamp beside the
    payload. For a [content] event of payload [{"text": "Hi"}] the data field
    is not that payload. *)
Lemma frame_data_is_not_the_payload :
  map frame_data
    (event_generator "subtask-0" greeting_run (example_posted true)).1.1
  = [[("event_type", VStr "content");
      ("data", VDict [("text", VStr "Hi")]);
      ("timestamp", VDatetime 1700000000000001%Z)];
     [("event_type", VStr "complete");
      ("data", VDict []);
      ("timestamp", VDatetime 1700000000000002%Z)]]
  ∧ map frame_data
      (event_generator "subtask-0" greeting_run (example_posted true)).1.1
    ≠ [[("text", VStr "Hi")]; []].
Proof. split; [reflexivity | discriminate]. Qed.

(** C2, amended: the frames of a stream are the events of
    [stream_chat_events] in order, one frame each; the frame's event field is
    the event's type, and its data field is the dump of the whole event: an
    object of exactly three fields, [event_type] (the type again), [data] (the
    payload) and [timestamp]. *)
Theorem frame_data_is_model_dump subtask_id p w :
  (event_generator subtask_id p w).1.1
  = map frame_of (stream_chat_events subtask_id p w).1.1
  ∧ ∀ ev, frame_event (frame_of ev) = event_type ev
          ∧ frame_data (frame_of ev)
            = [("event_type", VStr (event_type ev));
               ("data", VDict (data ev));
               ("timestamp", VDatetime (timestamp ev))].
Proof.
  split; [|done].
  unfold event_generator, stream_chat_events. rewrite drain_frames.
  by destruct (drain (stream_chat_events_next subtask_id) _ _ w)
    as [[evs fin] w'].
Qed.

(** C5: when the producer raises an exception [e] after its events were
    forwarded, the stream carries those events and then one [error] event
    whose payload is [{"message": str(e)}]; it is the last event, the
    generator returns, and the status of the session is [error]. *)
Theorem producer_exception_becomes_error_event subtask_id events e w :
  Forall well_formed events →
  is_Exception e = true →
  is_Some (active_sessions w !! subtask_id) →
  ∃ forwarded last w',
    stream_chat_events subtask_id {| pending := events; ending := Raises e |} w
    = (forwarded ++ [last], Returned, w')
    ∧ Forall2 forwards forwarded events
    ∧ event_type last = "error"
    ∧ data last = [("message", VStr (str_exn e))]
    ∧ status_of subtask_id w' = Some "error".
Proof.
  intros Hwf He [s Hs].
  destruct (stream_run subtask_id events (Raises e) w)
    as (forwarded & last & w' & Hrun & Hm & Hl & Ha & _).
  destruct (loop_trace_well_formed events (Raises e) Hwf) as [Hfin Hlen].
  pose proof (loop_trace_forwards _ _ _ Hm) as Hfw.
  rewrite Hfin in Hrun, Hl, Ha.
  assert (Hc : closing (Raises e)
               = ("error", [("message", VStr (str_exn e))], "error", Returned))
    by (by destruct e).
  rewrite Hc in Hrun, Hl, Ha. simpl in Hrun, Hl, Ha.
  exists forwarded, last, w'. split_and!.
  - done.
  - rewrite take_ge in Hfw; [done|].
    rewrite <- Hlen, <- Hm. by rewrite length_map.
  - by injection Hl.
  - by injection Hl.
  - unfold status_of. rewrite Ha, lookup_alter.
    rewrite decide_True by done. by rewrite Hs.
Qed.

Lemma producer_exception_becomes_error_event_witness :
  ∃ forwarded last w',
    stream_chat_events "subtask-0" failing_run (example_posted true)
    = (forwarded ++ [last], Returned, w')
    ∧ Forall2 forwards forwarded (pending failing_run)
    ∧ event_type last = "error"
    ∧ data last = [("message", VStr "connection reset")]
    ∧ status_of "subtask-0" w' = Some "error".
Proof.
  apply (producer_exception_becomes_error_event "subtask-0"
           (pending failing_run) (Exception "connection reset")
           (example_posted true)).
  - repeat constructor. by exists "content", [("text", VStr "Hi")].
  - reflexivity.
  - eexists. vm_compute. reflexivity.
Defined.

(** ** C3, C7: cancellation and terminal statuses *)

Lemma with_sessions_same w : with_sessions (active_sessions w) w = w.
Proof. by destruct w. Qed.

Lemma set_status_same s : set_status (sess_status s) s = s.
Proof. by destruct s. Qed.

Lemma status_of_Some subtask_id w status :
  status_of subtask_id w = Some status →
  ∃ s, active_sessions w !! subtask_id = Some s ∧ sess_status s = status.
Proof.
  unfold status_of. destruct (active_sessions w !! subtask_id) as [s|]; [|done].
  intros [= <-]. eauto.
Qed.

Lemma evolves_terminal s s' :
  evolves s s' → terminal_status (sess_status s) = true →
  terminal_status (sess_status s') = true.
Proof. intros (_ & _ & _ & [-> | Ht]); done. Qed.

(** C3, as stated, fails: [DELETE /response/{subtask_id}] on a session whose
    status is [completed] succeeds and turns the status into [cancelled]. *)
Lemma cancel_overwrites_completed :
  status_of "subtask-0" example_completed = Some "completed"
  ∧ (cancel_session "subtask-0" example_completed).1
    = Return [("status", VStr "cancelled"); ("subtask_id", VStr "subtask-0")]
  ∧ status_of "subtask-0" (cancel_session "subtask-0" example_completed).2
    = Some "cancelled".
Proof. split_and!; vm_compute; reflexivity. Qed.

(** The other way round: a session cancelled while its stream is suspended at
    the [complete] event becomes [completed] when the stream is resumed. *)
Example completion_overwrites_cancelled :
  status_of "subtask-0"
    (run [RESUME "subtask-0" (InLoop {| pending := []; ending := Exhausted |});
          DELETE "subtask-0"]
       (example_posted true))
  = Some "cancelled"
  ∧ status_of "subtask-0"
      (run [RESUME "subtask-0" (InLoop {| pending := []; ending := Exhausted |});
            DELETE "subtask-0";
            RESUME "subtask-0" AtComplete]
         (example_posted true))
    = Some "completed".
Proof. split; vm_compute; reflexivity. Qed.

(** C3, amended: once the status of a session is terminal (completed, error
    or cancelled) it is terminal after every run of the server, whatever the
    requests and stream resumptions, as long as [uuid4] does not return the
    session's id again. The registry refuses no transition and raises no
    [StreamCompletedError]: [DELETE /response/{subtask_id}] succeeds from
    every status and leaves the status [cancelled], also from completed and
    error; on a session already cancelled it changes nothing. *)
Theorem terminal_status_stays_terminal subtask_id w status ops :
  status_of subtask_id w = Some status →
  terminal_status status = true →
  never_drawn_again subtask_id w →
  (∃ status', status_of subtask_id (run ops w) = Some status'
              ∧ terminal_status status' = true)
  ∧ (cancel_session subtask_id w).1
    = Return [("status", VStr "cancelled"); ("subtask_id", VStr subtask_id)]
  ∧ status_of subtask_id (cancel_session subtask_id w).2 = Some "cancelled"
  ∧ (status = "cancelled" → (cancel_session subtask_id w).2 = w).
Proof.
  intros Hst Ht Hn.
  apply status_of_Some in Hst as (s & Hs & <-).
  pose proof (cancel_session_run subtask_id w) as Hc. rewrite Hs in Hc.
  split_and!.
  - destruct (run_session subtask_id ops w s Hn Hs) as (s' & Hs' & He).
    exists (sess_status s'). split.
    + unfold status_of. by rewrite Hs'.
    + by eapply evolves_terminal.
  - by rewrite Hc.
  - rewrite Hc. unfold status_of. simpl. by rewrite lookup_insert_eq.
  - intros Heq. rewrite Hc. simpl. rewrite <- Heq, set_status_same.
    rewrite insert_id by done. apply with_sessions_same.
Qed.

Lemma example_id_not_drawn_again w :
  uuid_src w = uuid_src example_world → uuid_calls w = 1 →
  never_drawn_again "subtask-0" w.
Proof.
  intros Hsrc Hcalls k Hk. rewrite Hsrc, Hcalls in *. simpl.
  intros [= Heq]. change (pretty k = pretty 0) in Heq.
  apply (inj pretty) in Heq. lia.
Qed.

Lemma terminal_status_stays_terminal_witness :
  (∃ status',
      status_of "subtask-0"
        (run [GET "subtask-0"; DELETE "subtask-0"; POST (example_request false);
              RESUME "subtask-0" AtComplete]
           example_completed)
      = Some status'
      ∧ terminal_status status' = true)
  ∧ (cancel_session "subtask-0" example_completed).1
    = Return [("status", VStr "cancelled"); ("subtask_id", VStr "subtask-0")]
  ∧ status_of "subtask-0" (cancel_session "subtask-0" example_completed).2
    = Some "cancelled"
  ∧ ("completed" = "cancelled"
     → (cancel_session "subtask-0" example_completed).2 = example_completed).
Proof.
  apply (terminal_status_stays_terminal "subtask-0" example_completed
           "completed").
  - vm_compute. reflexivity.
  - reflexivity.
  - apply example_id_not_drawn_again; reflexivity.
Defined.

(** C7: cancelling a registered session twice is idempotent. The second
    [DELETE /response/{subtask_id}] returns the success result of the first
    and leaves the world as the first left it, the status [cancelled]. *)
Theorem cancel_session_twice subtask_id w :
  is_Some (active_sessions w !! subtask_id) →
  (cancel_session subtask_id w).1
  = Return [("status", VStr "cancelled"); ("subtask_id", VStr subtask_id)]
  ∧ cancel_session subtask_id (cancel_session subtask_id w).2
    = cancel_session subtask_id w
  ∧ status_of subtask_id (cancel_session subtask_id w).2 = Some "cancelled".
Proof.
  intros [s Hs].
  pose proof (cancel_session_run subtask_id w) as Hc. rewrite Hs in Hc.
  pose proof (cancel_session_run subtask_id (cancel_session subtask_id w).2)
    as Hc2.
  rewrite Hc in Hc2 |- *. simpl in Hc2 |- *.
  rewrite lookup_insert_eq in Hc2.
  split_and!.
  - done.
  - rewrite Hc2. f_equal. unfold with_sessions. simpl.
    by rewrite insert_insert_eq.
  - unfold status_of. simpl. by rewrite lookup_insert_eq.
Qed.

Lemma cancel_session_twice_witness :
  (cancel_session "subtask-0" (example_posted true)).1
  = Return [("status", VStr "cancelled"); ("subtask_id", VStr "subtask-0")]
  ∧ cancel_session "subtask-0"
      (cancel_session "subtask-0" (example_posted true)).2
    = cancel_session "subtask-0" (example_posted true)
  ∧ status_of "subtask-0" (cancel_session "subtask-0" (example_posted true)).2
    = Some "cancelled".
Proof.
  apply (cancel_session_twice "subtask-0" (example_posted true)).
  eexists. vm_compute. reflexivity.
Defined.

(** ** C6, C8, C9, C10: the request handlers *)

Lemma terminal_status_literal status :
  terminal_status status = true →
  in_literal status SessionStatus_status_literal = true.
Proof.
  unfold terminal_status, in_literal. simpl.
  destruct (String.eqb status "pending"), (String.eqb status "running"),
    (String.eqb status "completed"), (String.eqb status "error"),
    (String.eqb status "cancelled"); done.
Qed.

(** C6: in every world the server can reach, [GET /response/{subtask_id}] on
    a registered id returns a session status whose fields with content are
    exactly [subtask_id], [session_id], [status], [created_at], [updated_at]
    and [message_count], read off the registry (the one other field,
    [metadata], is null); on an id that is not registered it raises the
    [HTTPException] 404, and it raises nothing in the other case. *)
Theorem get_session_status_found_or_404 subtask_id w :
  reachable w →
  match active_sessions w !! subtask_id with
  | Some session =>
      ∃ r w',
        get_session_status subtask_id w = (Return r, w')
        ∧ content_fields (SessionStatus_json r)
          = ["subtask_id"; "session_id"; "status"; "created_at"; "updated_at";
             "message_count"]
        ∧ SessionStatus_json r
          = [("subtask_id", VStr subtask_id);
             ("session_id", VStr (sess_session_id session));
             ("status", VStr (sess_status session));
             ("created_at", VDatetime (sess_created_at session));
             ("updated_at", VDatetime (now_src w (now_calls w)));
             ("message_count",
              VInt (Z.of_nat (length (sess_messages session))));
             ("metadata", VNone)]
        ∧ active_sessions w' = active_sessions w
  | None =>
      get_session_status subtask_id w
      = (Raise (HTTPException 404 "Subtask not found"), w)
  end.
Proof.
  intros Hr. pose proof (get_session_status_run subtask_id w) as Hg.
  destruct (active_sessions w !! subtask_id) as [session|] eqn:Hs; [|done].
  rewrite (reachable_statuses_valid w Hr subtask_id session Hs) in Hg.
  rewrite Hg. by do 2 eexists.
Qed.

Lemma get_session_status_found_or_404_witness :
  match active_sessions (example_posted false) !! "subtask-0" with
  | Some session =>
      ∃ r w',
        get_session_status "subtask-0" (example_posted false) = (Return r, w')
        ∧ content_fields (SessionStatus_json r)
          = ["subtask_id"; "session_id"; "status"; "created_at"; "updated_at";
             "message_count"]
        ∧ SessionStatus_json r
          = [("subtask_id", VStr "subtask-0");
             ("session_id", VStr (sess_session_id session));
             ("status", VStr (sess_status session));
             ("created_at", VDatetime (sess_created_at session));
             ("updated_at",
              VDatetime (now_src (example_posted false)
                           (now_calls (example_posted false))));
             ("message_count",
              VInt (Z.of_nat (length (sess_messages session))));
             ("metadata", VNone)]
        ∧ active_sessions w' = active_sessions (example_posted false)
  | None =>
      get_session_status "subtask-0" (example_posted false)
      = (Raise (HTTPException 404 "Subtask not found"), example_posted false)
  end.
Proof.
  apply (get_session_status_found_or_404 "subtask-0" (example_posted false)).
  apply (reachable_step (POST (example_request false)) example_world).
  apply reachable_start. reflexivity.
Defined.

(** C8: [POST /response] always answers. When the body's stream flag is true
    or absent (it defaults to true) the answer is an event stream, the
    generator of [stream_chat_events] for the subtask just registered; when
    the flag is false it is a JSON object with the fields [subtask_id],
    [session_id] and [status] (and [created_at]). *)
Theorem start_chat_stream_or_json body w :
  ∃ response w',
    start_chat (ChatRequest_of_body body) w = (Return response, w')
    ∧ is_Some (active_sessions w' !! uuid_src w (uuid_calls w))
    ∧ match body_stream body with
      | None | Some true =>
          ∃ gen headers,
            response = EventSourceResponse gen headers
            ∧ gen_subtask_id gen = uuid_src w (uuid_calls w)
      | Some false =>
          ∃ r,
            response = JSONResponse r
            ∧ ["subtask_id"; "session_id"; "status"]
              ⊆ dict_keys (ChatResponse_json r)
            ∧ dict_lookup "subtask_id" (ChatResponse_json r)
              = Some (VStr (uuid_src w (uuid_calls w)))
      end.
Proof.
  destruct (start_chat_run (ChatRequest_of_body body) w)
    as (sid & t & response & w' & Hrun & Ha & _ & _ & Hresp).
  exists response, w'. split_and!.
  - done.
  - rewrite Ha, lookup_insert_eq. eauto.
  - simpl in Hresp. destruct (body_stream body) as [[|]|]; simpl in Hresp.
    + subst response. by do 2 eexists.
    + destruct Hresp as [t' ->]. eexists. split_and!; [done | | done].
      simpl. intros x Hx. rewrite !elem_of_cons, elem_of_nil in Hx.
      rewrite !elem_of_cons. tauto.
    + subst response. by do 2 eexists.
Qed.

(** C9: the body of a non-streaming [POST /response] has the status
    [created], while the session it registered has the status [running];
    a [GET /response/{subtask_id}] that follows reports [running], not
    [created]. *)
Theorem created_response_running_session request w :
  stream request = false →
  ∃ r w1 st w2,
    start_chat request w = (Return (JSONResponse r), w1)
    ∧ resp_status r = "created"
    ∧ status_of (resp_subtask_id r) w1 = Some "running"
    ∧ get_session_status (resp_subtask_id r) w1 = (Return st, w2)
    ∧ ss_status st = "running"
    ∧ ss_status st ≠ "created".
Proof.
  intros Hstream.
  destruct (start_chat_run request w)
    as (sid & t & response & w1 & Hrun & Ha & _ & _ & Hresp).
  rewrite Hstream in Hresp. destruct Hresp as [t' ->].
  pose proof (get_session_status_run (uuid_src w (uuid_calls w)) w1) as Hg.
  rewrite Ha, lookup_insert_eq in Hg. simpl in Hg.
  do 4 eexists. split_and!.
  - done.
  - done.
  - unfold status_of. simpl. by rewrite Ha, lookup_insert_eq.
  - apply Hg.
  - done.
  - done.
Qed.

Lemma created_response_running_session_witness :
  ∃ r w1 st w2,
    start_chat (example_request false) example_world
    = (Return (JSONResponse r), w1)
    ∧ resp_status r = "created"
    ∧ status_of (resp_subtask_id r) w1 = Some "running"
    ∧ get_session_status (resp_subtask_id r) w1 = (Return st, w2)
    ∧ ss_status st = "running"
    ∧ ss_status st ≠ "created".
Proof.
  apply (created_response_running_session (example_request false)
           example_world).
  reflexivity.
Defined.

(** C10: after [POST /response] stored a session, no run of the server
    (requests of any kind and resumptions of any stream) changes its stored
    messages, as long as [uuid4] does not return the session's id again; so
    [GET /response/{subtask_id}] succeeds after any such run and its
    [message_count] is the number of messages of the request body. *)
Theorem message_count_is_request_length request w ops :
  never_drawn_again (uuid_src w (uuid_calls w)) (start_chat request w).2 →
  ∃ response st w',
    (start_chat request w).1 = Return response
    ∧ response_subtask_id response = Some (uuid_src w (uuid_calls w))
    ∧ sess_messages
        <$> active_sessions (run ops (start_chat request w).2)
            !! uuid_src w (uuid_calls w)
      = Some (messages request)
    ∧ get_session_status (uuid_src w (uuid_calls w))
        (run ops (start_chat request w).2)
      = (Return st, w')
    ∧ ss_message_count st = Z.of_nat (length (messages request)).
Proof.
  intros Hn.
  destruct (start_chat_run request w)
    as (sid & t & response & w1 & Hrun & Ha & _ & _ & Hresp).
  rewrite Hrun in Hn |- *. simpl in Hn |- *.
  set (id := uuid_src w (uuid_calls w)) in *.
  set (s := {| sess_session_id := sid; sess_status := "running";
               sess_created_at := t; sess_messages := messages request |})
    in *.
  assert (Hs : active_sessions w1 !! id = Some s)
    by (by rewrite Ha, lookup_insert_eq).
  destruct (run_session id ops w1 s Hn Hs) as (s' & Hs' & He).
  pose proof (get_session_status_run id (run ops w1)) as Hg.
  rewrite Hs' in Hg.
  destruct He as (_ & _ & Hmsg & Hst).
  assert (Hlit : in_literal (sess_status s') SessionStatus_status_literal = true).
  { destruct Hst as [-> | Hterm]; [done | by apply terminal_status_literal]. }
  rewrite Hlit in Hg.
  exists response. do 2 eexists. split_and!.
  - done.
  - destruct (stream request); [by subst response|].
    by destruct Hresp as [t' ->].
  - rewrite Hs'. simpl. by rewrite Hmsg.
  - apply Hg.
  - simpl. by rewrite Hmsg.
Qed.

Lemma message_count_is_request_length_witness :
  ∃ response st w',
    (start_chat (example_request true) example_world).1 = Return response
    ∧ response_subtask_id response = Some "subtask-0"
    ∧ sess_messages
        <$> active_sessions
              (run [RESUME "subtask-0" (InLoop failing_run); DELETE "subtask-0";
                    POST (example_request false); GET "subtask-1";
                    RESUME "subtask-0" AtError]
                 (start_chat (example_request true) example_world).2)
            !! "subtask-0"
      = Some example_messages
    ∧ get_session_status "subtask-0"
        (run [RESUME "subtask-0" (InLoop failing_run); DELETE "subtask-0";
              POST (example_request false); GET "subtask-1";
              RESUME "subtask-0" AtError]
           (start_chat (example_request true) example_world).2)
      = (Return st, w')
    ∧ ss_message_count st = 2%Z.
Proof.
  apply (message_count_is_request_length (example_request true) example_world).
  apply example_id_not_drawn_again; reflexivity.
Defined.

(** * Further properties *)

#[local] Set Warnings "-clear-no-such-hyp".

(** ** routes.py and sse.py: the registry along a run *)

Section Registry.

Lemma posts_cons op ops :
  posts (op :: ops)
  = (match op with POST _ => 1 | _ => 0 end) + posts ops.
Proof. unfold posts. simpl. by destruct op. Qed.

Lemma step_registry op w :
  uuid_src (step op w) = uuid_src w
  ∧ uuid_calls (step op w)
    = (match op with POST _ => 1 | _ => 0 end) + uuid_calls w
  ∧ dom (active_sessions (step op w))
    = match op with
      | POST _ => {[uuid_src w (uuid_calls w)]} ∪ dom (active_sessions w)
      | _ => dom (active_sessions w)
      end.
Proof.
  destruct op as [request|k|k|k pc]; simpl.
  - destruct (start_chat_run request w)
      as (sid & t & response & w' & -> & Ha & Hu & Hc & _).
    simpl. rewrite Ha, dom_insert_L. done.
  - pose proof (get_session_status_run k w) as H.
    destruct (active_sessions w !! k) as [s|];
      [destruct (in_literal _ _)|]; by rewrite H.
  - pose proof (cancel_session_run k w) as H.
    destruct (active_sessions w !! k) as [s|] eqn:Hk; rewrite H; [|done].
    simpl. split_and!; [done | done |].
    rewrite dom_insert_L. apply (elem_of_dom_2 (D := gset string)) in Hk.
    set_solver.
  - destruct (next_world k pc w)
      as [(Ha & _ & Hu & Hc)|(st & _ & Ha & _ & Hu & Hc)];
      rewrite Ha, Hu, Hc; [done|].
    by rewrite dom_alter_L.
Qed.

Lemma run_cons op ops w : run (op :: ops) w = run ops (step op w).
Proof. reflexivity. Qed.

Lemma run_dom_subseteq ops w :
  dom (active_sessions w) ⊆ dom (active_sessions (run ops w)).
Proof.
  revert w. induction ops as [|op ops IH]; intros w; [done|].
  rewrite run_cons. etrans; [|apply IH].
  destruct (step_registry op w) as (_ & _ & ->). destruct op; set_solver.
Qed.

Lemma run_dom ops w c0 k :
  uuid_calls w = c0 + k →
  dom (active_sessions w) = list_to_set (uuid_src w <$> seq c0 k) →
  dom (active_sessions (run ops w))
  = list_to_set (uuid_src w <$> seq c0 (k + posts ops)).
Proof.
  revert w k. induction ops as [|op ops IH]; intros w k Hc Hd.
  - unfold posts. simpl. by rewrite Nat.add_0_r.
  - rewrite run_cons, posts_cons.
    destruct (step_registry op w) as (Hu & Hc' & Hd').
    destruct op as [request|id|id|id pc].
    + rewrite <- Hu.
      replace (k + (1 + posts ops)) with (S k + posts ops) by lia.
      apply IH; [lia|].
      rewrite Hd', Hu, Hd, seq_S, fmap_app, list_to_set_app_L, Hc.
      simpl. set_solver.
    + rewrite <- Hu. apply IH; [lia | by rewrite Hd', Hu].
    + rewrite <- Hu. apply IH; [lia | by rewrite Hd', Hu].
    + rewrite <- Hu. apply IH; [lia | by rewrite Hd', Hu].
Qed.

End Registry.

Section HealthCheck.

Context {float : Type}.
Context (float_sub : float → float → float).
Context (float_of_int : Z → float).
Context (float_bool : float → bool).

Lemma health_check_run start_time time_time config_model w :
  ∃ r, health_check float_sub float_of_int float_bool start_time time_time
         config_model w = (Return r, w)
       ∧ health_status r = "healthy"
       ∧ health_active_sessions r = Z.of_nat (size (active_sessions w)).
Proof. by eexists. Qed.

End HealthCheck.

(** X1: no request and no stream ever removes a session. Along every run of
    the server the registered ids stay registered, so the number of active
    sessions [GET /health] reports never decreases: it counts the completed,
    failed and cancelled sessions too. *)
Theorem sessions_are_never_removed {float : Type}
    (float_sub : float → float → float) (float_of_int : Z → float)
    (float_bool : float → bool) start_time time1 time2 config_model ops w :
  dom (active_sessions w) ⊆ dom (active_sessions (run ops w))
  ∧ ∃ before after,
      (health_check float_sub float_of_int float_bool start_time time1
         config_model w).1 = Return before
      ∧ (health_check float_sub float_of_int float_bool start_time time2
           config_model (run ops w)).1 = Return after
      ∧ (health_active_sessions before ≤ health_active_sessions after)%Z.
Proof.
  pose proof (run_dom_subseteq ops w) as Hsub. split; [done|].
  destruct (health_check_run float_sub float_of_int float_bool start_time
              time1 config_model w) as (r1 & H1 & _ & Hn1).
  destruct (health_check_run float_sub float_of_int float_bool start_time
              time2 config_model (run ops w)) as (r2 & H2 & _ & Hn2).
  exists r1, r2. rewrite H1, H2, Hn1, Hn2. split_and!; [done | done |].
  apply inj_le. rewrite <- !size_dom. by apply subseteq_size.
Qed.

(** X2: started with an empty registry and with [uuid4] returning no id
    twice, the server has as many sessions as it served [POST /response]
    requests, whatever else it did in between; [GET /health] reports that
    number and changes nothing. *)
Theorem health_counts_the_posts {float : Type}
    (float_sub : float → float → float) (float_of_int : Z → float)
    (float_bool : float → bool) start_time time_time config_model ops w :
  active_sessions w = ∅ →
  Inj (=) (=) (uuid_src w) →
  ∃ r,
    health_check float_sub float_of_int float_bool start_time time_time
      config_model (run ops w)
    = (Return r, run ops w)
    ∧ health_active_sessions r = Z.of_nat (posts ops).
Proof.
  intros Hempty Hinj.
  destruct (health_check_run float_sub float_of_int float_bool start_time
              time_time config_model (run ops w)) as (r & Hr & _ & Hn).
  exists r. split; [done|]. rewrite Hn. f_equal.
  rewrite <- size_dom.
  rewrite (run_dom ops w (uuid_calls w) 0);
    [|lia | by rewrite Hempty, dom_empty_L].
  rewrite size_list_to_set, length_fmap, length_seq; [done|].
  apply NoDup_fmap; [done | apply NoDup_seq].
Qed.

Lemma example_uuid_src_inj : Inj (=) (=) (uuid_src example_world).
Proof.
  intros x y Heq. simpl in Heq. injection Heq as Heq.
  change (pretty x = pretty y) in Heq. by apply (inj pretty) in Heq.
Qed.

Lemma health_counts_the_posts_witness :
  ∃ r,
    health_check Z.sub id (λ t, negb (Z.eqb t 0)) (Some 5%Z) 65%Z
      "deepseek-chat"
      (run [POST (example_request true); DELETE "subtask-0";
            POST (example_request false); GET "subtask-1"]
         example_world)
    = (Return r,
       run [POST (example_request true); DELETE "subtask-0";
            POST (example_request false); GET "subtask-1"]
         example_world)
    ∧ health_active_sessions r = Z.of_nat 2.
Proof.
  apply (health_counts_the_posts Z.sub id (λ t, negb (Z.eqb t 0)) (Some 5%Z)
           65%Z "deepseek-chat"
           [POST (example_request true); DELETE "subtask-0";
            POST (example_request false); GET "subtask-1"]
           example_world).
  - reflexivity.
  - apply example_uuid_src_inj.
Defined.

(** X3: on an id that is not registered, [GET /response/{subtask_id}] and
    [DELETE /response/{subtask_id}] both raise the [HTTPException] 404 and
    leave the world as it was: a failed cancellation registers nothing. *)
Theorem unregistered_subtask_is_not_found subtask_id w :
  active_sessions w !! subtask_id = None →
  get_session_status subtask_id w
  = (Raise (HTTPException 404 "Subtask not found"), w)
  ∧ cancel_session subtask_id w
    = (Raise (HTTPException 404 "Subtask not found"), w).
Proof.
  intros Hnone.
  pose proof (get_session_status_run subtask_id w) as Hg.
  pose proof (cancel_session_run subtask_id w) as Hc.
  by rewrite Hnone in Hg, Hc.
Qed.

Lemma unregistered_subtask_is_not_found_witness :
  get_session_status "subtask-9" (example_posted true)
  = (Raise (HTTPException 404 "Subtask not found"), example_posted true)
  ∧ cancel_session "subtask-9" (example_posted true)
    = (Raise (HTTPException 404 "Subtask not found"), example_posted true).
Proof.
  apply (unregistered_subtask_is_not_found "subtask-9" (example_posted true)).
  vm_compute. reflexivity.
Defined.

(** ** sse.py: the status of a streamed session *)

Lemma mark_status_clock subtask_id status w :
  now_src (mark_status subtask_id status w).2 = now_src w
  ∧ now_calls (mark_status subtask_id status w).2 = now_calls w.
Proof.
  unfold mark_status, get_sessions, assign_status, mbind, Py_bind, mret, Py_ret.
  by case_bool_decide.
Qed.

Lemma ChatEvent_new_clock type_ data_ w w' :
  now_src w = now_src w' → now_calls w = now_calls w' →
  (ChatEvent_new type_ data_ w).1 = (ChatEvent_new type_ data_ w').1
  ∧ now_src (ChatEvent_new type_ data_ w).2
    = now_src (ChatEvent_new type_ data_ w').2
  ∧ now_calls (ChatEvent_new type_ data_ w).2
    = now_calls (ChatEvent_new type_ data_ w').2.
Proof.
  intros Hs Hc. unfold ChatEvent_new.
  destruct (ChatEvent_validate type_ data_) as [e|[kind d]]; simpl.
  - done.
  - by rewrite Hs, Hc.
Qed.

Lemma yield_event_clock type_ data_ pc w w' :
  now_src w = now_src w' → now_calls w = now_calls w' →
  (yield_event type_ data_ pc w).1 = (yield_event type_ data_ pc w').1
  ∧ now_src (yield_event type_ data_ pc w).2
    = now_src (yield_event type_ data_ pc w').2
  ∧ now_calls (yield_event type_ data_ pc w).2
    = now_calls (yield_event type_ data_ pc w').2.
Proof.
  intros Hs Hc. unfold yield_event.
  destruct (ChatEvent_new_clock type_ data_ w w' Hs Hc) as (H1 & H2 & H3).
  destruct (ChatEvent_new type_ data_ w) as [[ev|e] w1],
    (ChatEvent_new type_ data_ w') as [[ev'|e'] w1'];
    simpl in *; try done; by injection H1 as ->.
Qed.

Lemma except_clock subtask_id subtask_id' e w w' :
  now_src w = now_src w' → now_calls w = now_calls w' →
  (stream_chat_events_except subtask_id e w).1
  = (stream_chat_events_except subtask_id' e w').1
  ∧ now_src (stream_chat_events_except subtask_id e w).2
    = now_src (stream_chat_events_except subtask_id' e w').2
  ∧ now_calls (stream_chat_events_except subtask_id e w).2
    = now_calls (stream_chat_events_except subtask_id' e w').2.
Proof.
  intros Hs Hc. unfold stream_chat_events_except.
  destruct e; cbv beta iota zeta; apply yield_event_clock;
    rewrite ?(proj1 (mark_status_clock _ _ _)),
            ?(proj2 (mark_status_clock _ _ _)); done.
Qed.

(** X4: what an open stream yields does not depend on the registry. Two
    resumptions of [stream_chat_events] at the same point, under the same
    clock, give the same event and the same next point whatever the registry
    holds and whatever the subtask is; the clock readings stay equal, so this
    holds along a whole stream. In particular a
    [DELETE /response/{subtask_id}] does not stop or change the stream of
    that subtask. *)
Theorem stream_ignores_the_registry subtask_id subtask_id' pc w w' :
  now_src w = now_src w' →
  now_calls w = now_calls w' →
  (stream_chat_events_next subtask_id pc w).1
  = (stream_chat_events_next subtask_id' pc w').1
  ∧ now_src (stream_chat_events_next subtask_id pc w).2
    = now_src (stream_chat_events_next subtask_id' pc w').2
  ∧ now_calls (stream_chat_events_next subtask_id pc w).2
    = now_calls (stream_chat_events_next subtask_id' pc w').2.
Proof.
  intros Hs Hc. destruct pc as [p| | | |]; simpl.
  - destruct (pending p) as [|event rest].
    + destruct (ending p) as [|e];
        [by apply yield_event_clock | by apply except_clock].
    + destruct (ChatEvent_new_clock (dict_get "type" (VStr "") event)
                  (dict_get "data" (VDict []) event) w w' Hs Hc)
        as (H1 & H2 & H3).
      destruct (ChatEvent_new _ _ w) as [[ev|e] w1],
        (ChatEvent_new _ _ w') as [[ev'|e'] w1']; simpl in *; try done.
      * by injection H1 as ->.
      * injection H1 as ->. by apply except_clock.
  - by rewrite !(proj1 (mark_status_clock _ _ _)),
               !(proj2 (mark_status_clock _ _ _)).
  - done.
  - done.
  - done.
Qed.

Lemma stream_ignores_the_registry_witness :
  (stream_chat_events_next "subtask-0" (InLoop greeting_run)
     (example_posted true)).1
  = (stream_chat_events_next "subtask-0" (InLoop greeting_run)
       (cancel_session "subtask-0" (example_posted true)).2).1
  ∧ now_src (stream_chat_events_next "subtask-0" (InLoop greeting_run)
               (example_posted true)).2
    = now_src (stream_chat_events_next "subtask-0" (InLoop greeting_run)
                 (cancel_session "subtask-0" (example_posted true)).2).2
  ∧ now_calls (stream_chat_events_next "subtask-0" (InLoop greeting_run)
                 (example_posted true)).2
    = now_calls (stream_chat_events_next "subtask-0" (InLoop greeting_run)
                   (cancel_session "subtask-0" (example_posted true)).2).2.
Proof.
  apply (stream_ignores_the_registry "subtask-0" "subtask-0"
           (InLoop greeting_run) (example_posted true)
           (cancel_session "subtask-0" (example_posted true)).2);
    reflexivity.
Defined.

(** X5: the [complete] event is yielded before the status is written. The
    resumption that yields [complete] leaves the registry as it was, so a
    status read at that moment still reports the old status; the status
    becomes [completed] only when the generator is resumed once more. When
    the producer ends with an exception the status ([cancelled] for a
    [CancelledError], [error] otherwise) is written before the closing event
    is yielded. *)
Theorem complete_is_yielded_before_the_status subtask_id w session :
  active_sessions w !! subtask_id = Some session →
  let finished := InLoop {| pending := []; ending := Exhausted |} in
  (∃ ev, (stream_chat_events_next subtask_id finished w).1
         = (Yield ev, AtComplete)
         ∧ event_type ev = "complete")
  ∧ active_sessions (stream_chat_events_next subtask_id finished w).2
    = active_sessions w
  ∧ status_of subtask_id
      (stream_chat_events_next subtask_id AtComplete
         (stream_chat_events_next subtask_id finished w).2).2
    = Some "completed"
  ∧ ∀ e,
      let failed := InLoop {| pending := []; ending := Raises e |} in
      (∃ ev, (stream_chat_events_next subtask_id failed w).1.1 = Yield ev
             ∧ event_type ev ∈ ["cancelled"; "error"])
      ∧ status_of subtask_id (stream_chat_events_next subtask_id failed w).2
        = Some (final_status (Raises e)).
Proof.
  intros Hs finished. split_and!.
  - by eexists.
  - done.
  - change (status_of subtask_id
              (mark_status subtask_id "completed" (datetime_now w).2).2
            = Some "completed").
    destruct (mark_status_sets subtask_id "completed"
                (datetime_now w).2) as [_ (Ha & _)].
    unfold status_of. rewrite Ha, lookup_alter, decide_True by done.
    simpl. by rewrite Hs.
  - intros e failed.
    destruct (except_run subtask_id e w 0)
      as (last & pc & w1 & Hx & Hl & (Ha & _) & _).
    change (stream_chat_events_next subtask_id failed w)
      with (stream_chat_events_except subtask_id e w).
    rewrite Hx. simpl. split.
    + exists last. split; [done|].
      replace (event_type last) with (type_and_data last).1 by done.
      rewrite Hl. destruct e; simpl; set_solver.
    + unfold status_of. rewrite Ha, lookup_alter, decide_True by done.
      rewrite Hs. simpl. by destruct e.
Qed.

Lemma complete_is_yielded_before_the_status_witness :
  (∃ ev, (stream_chat_events_next "subtask-0"
            (InLoop {| pending := []; ending := Exhausted |})
            (example_posted true)).1
         = (Yield ev, AtComplete)
         ∧ event_type ev = "complete")
  ∧ active_sessions
      (stream_chat_events_next "subtask-0"
         (InLoop {| pending := []; ending := Exhausted |})
         (example_posted true)).2
    = active_sessions (example_posted true)
  ∧ status_of "subtask-0"
      (stream_chat_events_next "subtask-0" AtComplete
         (stream_chat_events_next "subtask-0"
            (InLoop {| pending := []; ending := Exhausted |})
            (example_posted true)).2).2
    = Some "completed"
  ∧ ∀ e,
      (∃ ev, (stream_chat_events_next "subtask-0"
                (InLoop {| pending := []; ending := Raises e |})
                (example_posted true)).1.1 = Yield ev
             ∧ event_type ev ∈ ["cancelled"; "error"])
      ∧ status_of "subtask-0"
          (stream_chat_events_next "subtask-0"
             (InLoop {| pending := []; ending := Raises e |})
             (example_posted true)).2
        = Some (final_status (Raises e)).
Proof.
  eapply (complete_is_yielded_before_the_status "subtask-0"
            (example_posted true)).
  vm_compute. reflexivity.
Defined.

Lemma closing_status fin : (closing fin).1.2 = final_status fin.
Proof. by destruct fin as [|[]]. Qed.


(** X6: a stream read to its end writes one status, to its own session only.
    When every dict of the producer passes the validation of [ChatEvent],
    the registry afterwards is the registry before with the status of the
    stream's subtask set to [completed] if the producer returned, to
    [cancelled] if the task was cancelled, to [error] if the producer raised;
    every other session, and every other field of this one, is untouched,
    and nothing is written when the subtask is not registered. *)
Theorem stream_writes_one_status subtask_id p w :
  Forall well_formed (pending p) →
  active_sessions (stream_chat_events subtask_id p w).2
  = alter (set_status (final_status (ending p))) subtask_id (active_sessions w)
  ∧ (active_sessions w !! subtask_id = None →
     active_sessions (stream_chat_events subtask_id p w).2 = active_sessions w)
  ∧ ∀ other, other ≠ subtask_id →
      active_sessions (stream_chat_events subtask_id p w).2 !! other
      = active_sessions w !! other.
Proof.
  intros Hwf. destruct p as [events fin]. simpl in *.
  destruct (stream_run subtask_id events fin w)
    as (forwarded & last & w' & -> & _ & _ & Ha & _).
  destruct (loop_trace_well_formed events fin Hwf) as [Hfin _].
  rewrite Hfin, closing_status in Ha. simpl.
  split_and!.
  - done.
  - intros Hnone. rewrite Ha. apply alter_absent. by apply not_elem_of_dom.
  - intros other Hne. rewrite Ha. by apply lookup_alter_ne.
Qed.

Lemma stream_writes_one_status_witness :
  active_sessions
    (stream_chat_events "subtask-0" tool_failure_run (example_posted true)).2
  = alter (set_status (final_status (ending tool_failure_run))) "subtask-0"
      (active_sessions (example_posted true))
  ∧ (active_sessions (example_posted true) !! "subtask-0" = None →
     active_sessions
       (stream_chat_events "subtask-0" tool_failure_run (example_posted true)).2
     = active_sessions (example_posted true))
  ∧ ∀ other, other ≠ "subtask-0" →
      active_sessions
        (stream_chat_events "subtask-0" tool_failure_run
           (example_posted true)).2 !! other
      = active_sessions (example_posted true) !! other.
Proof.
  apply (stream_writes_one_status "subtask-0" tool_failure_run
           (example_posted true)).
  repeat constructor.
  - by exists "tool_call",
      [("tool", VStr "calculator");
       ("input", VDict [("expression", VStr "2 +")])].
  - by exists "error", [("message", VStr "tool failed")].
  - by exists "content", [("text", VStr "I could not compute that.")].
Defined.

(** X7: a dict of the producer that [ChatEvent] refuses (its type is absent
    or is none of the seven literals, or its data is no dict) ends the
    stream. The events before it are forwarded, then one [error] event
    carries the validation error, the generator returns and the session's
    status is [error]; the dicts after it are never forwarded, and how the
    producer would have ended is not reported. *)
Theorem rejected_event_ends_the_stream subtask_id before bad rest fin w e :
  Forall well_formed before →
  ChatEvent_validate (raw_type bad) (raw_data bad) = inl e →
  ∃ forwarded last w',
    stream_chat_events subtask_id
      {| pending := before ++ bad :: rest; ending := fin |} w
    = (forwarded ++ [last], Returned, w')
    ∧ Forall2 forwards forwarded before
    ∧ type_and_data last = ("error", [("message", VStr (str_exn e))])
    ∧ active_sessions w'
      = alter (set_status "error") subtask_id (active_sessions w).
Proof.
  intros Hwf Hbad.
  destruct (stream_run subtask_id (before ++ bad :: rest) fin w)
    as (forwarded & last & w' & Hrun & Hm & Hl & Ha & _).
  destruct (loop_trace_rejected before bad rest fin e Hwf Hbad) as [Hfin Hlen].
  pose proof (loop_trace_forwards _ _ _ Hm) as Hfw.
  destruct (ChatEvent_validate_inl _ _ _ Hbad) as [field ->].
  rewrite Hfin in Hrun, Hl, Ha. simpl in Hrun, Hl, Ha.
  exists forwarded, last, w'. split_and!; try done.
  assert (Hn : length forwarded = length before)
    by (by rewrite <- Hlen, <- Hm, length_map).
  rewrite Hn in Hfw. by rewrite take_app_length in Hfw.
Qed.

Lemma rejected_event_ends_the_stream_witness :
  ∃ forwarded last w',
    stream_chat_events "subtask-0"
      {| pending := pending greeting_run
                    ++ [("data", VDict [("text", VStr "no type")])]
                       :: pending greeting_run;
         ending := Exhausted |} (example_posted true)
    = (forwarded ++ [last], Returned, w')
    ∧ Forall2 forwards forwarded (pending greeting_run)
    ∧ type_and_data last
      = ("error",
         [("message", VStr (str_exn (ValidationError "ChatEvent" "event_type")))])
    ∧ active_sessions w'
      = alter (set_status "error") "subtask-0"
          (active_sessions (example_posted true)).
Proof.
  apply (rejected_event_ends_the_stream "subtask-0" (pending greeting_run)
           [("data", VDict [("text", VStr "no type")])]
           (pending greeting_run) Exhausted (example_posted true)
           (ValidationError "ChatEvent" "event_type")).
  - repeat constructor. by exists "content", [("text", VStr "Hi")].
  - reflexivity.
Defined.

(** ** routes.py: the session id of a new session *)

(** X8: [POST /response] stores the session under the id [uuid4] returned,
    with the status [running] and the messages of the request. A session id
    the client gave is kept as it is, unless it is the empty string: an
    empty session id is treated like an absent one and replaced by
    ["session-"] followed by the whole seconds of the clock, read once more
    than for a given id. *)
Theorem session_id_is_given_or_generated request w :
  let generated :=
    {| sess_session_id :=
         "session-" +:+ pretty (Z.quot (now_src w (now_calls w)) 1000000);
       sess_status := "running";
       sess_created_at := now_src w (S (now_calls w));
       sess_messages := messages request |} in
  active_sessions (start_chat request w).2 !! uuid_src w (uuid_calls w)
  = Some match session_id request with
         | Some given =>
             if bool_decide (given = "") then generated
             else {| sess_session_id := given;
                     sess_status := "running";
                     sess_created_at := now_src w (now_calls w);
                     sess_messages := messages request |}
         | None => generated
         end.
Proof.
  unfold start_chat, session_id_or_default, mbind, Py_bind.
  destruct (session_id request) as [given|]; [case_bool_decide|];
    destruct (stream request); simpl; by rewrite lookup_insert_eq.
Qed.

(** ** agent.py: the events of [ChatAgent.stream] *)

Section AgentStream.
Import Agent.

Context (py_str : Value → string).

Lemma append_assoc (s1 s2 s3 : string) : (s1 +:+ s2) +:+ s3 = s1 +:+ (s2 +:+ s3).
Proof.
  induction s1 as [|a s1 IH]; [reflexivity|].
  change (String a ((s1 +:+ s2) +:+ s3) = String a (s1 +:+ (s2 +:+ s3))).
  by rewrite IH.
Qed.

Lemma append_empty (s : string) : s +:+ "" = s.
Proof.
  induction s as [|a s IH]; [reflexivity|].
  change (String a (s +:+ "") = String a s). by rewrite IH.
Qed.

(** A property of every event of a stream follows from the five places
    where [stream] yields. *)
Lemma stream_events_ind (P : Dict → Prop) :
  (∀ tc, P (thinking_event py_str tc)) →
  (∀ tc, P (tool_call_event tc)) →
  (∀ r, P (tool_result_event r)) →
  (∀ e, is_Exception e = true → P (tool_error_event e)) →
  (∀ text, text ≠ "" → P (content_event text)) →
  ∀ messages show_thinking run,
    Forall P (pending (stream py_str messages show_thinking run)).
Proof.
  intros Hthink Hcall Hres Herr Hcont messages show run.
  assert (Hone : ∀ tc outcome,
            Forall P (tool_call_events py_str show tc outcome).1).
  { intros tc outcome. unfold tool_call_events.
    destruct outcome as [e|r]; [destruct (is_Exception e) eqn:He|];
      destruct show; simpl; repeat constructor; auto. }
  assert (Hcalls : ∀ tcs outcomes n,
            Forall P (tool_calls_events py_str show tcs outcomes n).1.1).
  { induction tcs as [|tc tcs IH]; intros outcomes n; [constructor|].
    simpl. specialize (Hone tc (outcomes n)).
    destruct (tool_call_events py_str show tc (outcomes n)) as [events [e|]];
      [done|].
    specialize (IH outcomes (S n)).
    destruct (tool_calls_events py_str show tcs outcomes (S n))
      as [[events' raised] n'].
    simpl in *. by apply Forall_app. }
  assert (Hevent : ∀ event outcomes n,
            Forall P (graph_event_events py_str show event outcomes n).1.1).
  { intros [event_messages|] outcomes n; [|constructor].
    simpl. destruct (last event_messages) as [[| |text tcs|]|];
      try constructor.
    destruct tcs as [|tc tcs]; [|apply Hcalls].
    case_bool_decide; repeat constructor; auto. }
  unfold stream. destruct (init_error run); [constructor|].
  destruct (convert_messages messages) as [e|lc_messages]; [constructor|].
  generalize 0 as n.
  induction (graph_events run lc_messages) as [|event rest IH];
    intros n; [constructor|].
  simpl. specialize (Hevent event (tool_outcome run) n).
  destruct (graph_event_events py_str show event (tool_outcome run) n)
    as [[yielded [e|]] n']; simpl in *; [done|].
  apply Forall_app. split; [done | apply IH].
Qed.

End AgentStream.

(** X9: every dict [ChatAgent.stream] yields has one of the types [thinking],
    [tool_call], [tool_result], [error] and [content], never [complete] or
    [cancelled], and a dict as data: it passes the validation of
    [ChatEvent]. *)
Theorem agent_events_are_well_formed py_str messages show_thinking run :
  Forall (λ event,
            well_formed event
            ∧ ∃ kind, raw_type event = VStr kind
                      ∧ kind ∈ ["thinking"; "tool_call"; "tool_result";
                                "error"; "content"])
         (pending (Agent.stream py_str messages show_thinking run)).
Proof.
  apply stream_events_ind; intros;
    (split; [by do 2 eexists | eexists; split; [reflexivity | set_solver]]).
Qed.

(** X10: [stream_chat_events] cannot serve the [ChatAgent] of agent.py.
    [stream] has the parameters [messages] and [show_thinking] only; called
    with another keyword first, as [agent.stream(messages,
    thread_id=session_id)] at sse.py:26, it raises a [TypeError] before its
    body runs. The call stands inside the [try]: whatever the messages and
    whatever the agent would have done, nothing is forwarded, the stream is
    the one [error] event with the text of the [TypeError], the generator
    returns and the status written is [error]. *)
Theorem stream_refuses_other_keywords py_str TypeError_str messages keyword
    value kwargs run subtask_id w :
  keyword ∉ Agent.stream_parameters →
  Agent.call_stream py_str TypeError_str messages ((keyword, value) :: kwargs)
    run
  = {| pending := [];
       ending :=
         Raises (Exception (TypeError_str (Agent.UnexpectedKeyword keyword))) |}
  ∧ ∃ last w',
      stream_chat_events subtask_id
        (Agent.call_stream py_str TypeError_str messages
           ((keyword, value) :: kwargs) run) w
      = ([last], Returned, w')
      ∧ type_and_data last
        = ("error",
           [("message",
             VStr (TypeError_str (Agent.UnexpectedKeyword keyword)))])
      ∧ active_sessions w'
        = alter (set_status "error") subtask_id (active_sessions w).
Proof.
  intros Hnot.
  assert (Hcall : Agent.call_stream py_str TypeError_str messages
                    ((keyword, value) :: kwargs) run
                  = {| pending := [];
                       ending :=
                         Raises (Exception
                                   (TypeError_str
                                      (Agent.UnexpectedKeyword keyword))) |}).
  { unfold Agent.call_stream. cbn [Agent.bind_keywords].
    destruct (String.eqb_spec keyword "show_thinking") as [->|_];
      [by exfalso; apply Hnot; set_solver|].
    destruct (String.eqb_spec keyword "messages") as [->|_];
      [by exfalso; apply Hnot; set_solver|].
    done. }
  split; [done|]. rewrite Hcall.
  destruct (stream_run subtask_id []
              (Raises (Exception
                         (TypeError_str (Agent.UnexpectedKeyword keyword)))) w)
    as (forwarded & last & w' & Hrun & Hm & Hl & Ha & _).
  simpl in Hrun, Hm, Hl, Ha. apply map_eq_nil in Hm as ->.
  by exists last, w'.
Qed.

Lemma stream_refuses_other_keywords_witness :
  Agent.call_stream example_py_str example_TypeError_str
    (Agent.api_messages example_messages) [("thread_id", VStr "s1")]
    example_agent_run
  = {| pending := [];
       ending :=
         Raises (Exception
                   ("ChatAgent.stream() got an unexpected keyword argument "
                    +:+ "'thread_id'")) |}
  ∧ ∃ last w',
      stream_chat_events "subtask-0"
        (Agent.call_stream example_py_str example_TypeError_str
           (Agent.api_messages example_messages) [("thread_id", VStr "s1")]
           example_agent_run) (example_posted true)
      = ([last], Returned, w')
      ∧ type_and_data last
        = ("error",
           [("message",
             VStr ("ChatAgent.stream() got an unexpected keyword argument "
                   +:+ "'thread_id'"))])
      ∧ active_sessions w'
        = alter (set_status "error") "subtask-0"
            (active_sessions (example_posted true)).
Proof.
  apply (stream_refuses_other_keywords example_py_str example_TypeError_str
           (Agent.api_messages example_messages) "thread_id" (VStr "s1") []
           example_agent_run "subtask-0" (example_posted true)).
  unfold Agent.stream_parameters. set_solver.
Defined.

(** ** agent.py: tool calls, thinking notes and [invoke] *)

Section AgentTools.
Import Agent.

Context (py_str : Value → string).

Lemma closed_block_nil : closed_block [].
Proof. split; [exact I | by intros event [=]]. Qed.

Lemma closed_block_app l1 l2 :
  closed_block l1 → closed_block l2 → closed_block (l1 ++ l2).
Proof.
  intros [Ha1 Hl1] [Ha2 Hl2]. split.
  - induction l1 as [|event l1 IH]; [done|].
    destruct Ha1 as [Hnext Ha1]. simpl. split.
    + intros Hcall. destruct l1 as [|next l1].
      * rewrite (Hl1 event eq_refl) in Hcall. done.
      * by apply Hnext.
    + apply IH; [done|]. intros e He. apply Hl1.
      destruct l1; [done | by rewrite last_cons, He].
  - intros event. destruct l2 as [|e2 l2 _] using rev_ind.
    + rewrite app_nil_r. apply Hl1.
    + rewrite app_assoc, last_snoc. intros [= <-].
      apply Hl2. by rewrite last_snoc.
Qed.

Lemma tool_call_events_answer show_thinking tool_call outcome :
  (∀ e, outcome = inl e → is_Exception e = true) →
  ∃ events,
    tool_call_events py_str show_thinking tool_call outcome = (events, None)
    ∧ closed_block events
    ∧ Forall silent events
    ∧ length (List.filter (has_type "tool_call") events) = 1.
Proof.
  intros Hok. unfold tool_call_events.
  destruct outcome as [e|r].
  - rewrite (Hok e eq_refl).
    destruct show_thinking; eexists; (split; [reflexivity|]);
      (split_and!;
        [ split; [simpl; intuition done | by intros event [= <-]]
        | repeat constructor; by eexists
        | reflexivity ]).
  - destruct show_thinking; eexists; (split; [reflexivity|]);
      (split_and!;
        [ split; [simpl; intuition done | by intros event [= <-]]
        | repeat constructor; by eexists
        | reflexivity ]).
Qed.

Lemma tool_calls_events_closed show_thinking tool_calls outcomes n :
  (∀ k e, outcomes k = inl e → is_Exception e = true) →
  ∃ events,
    tool_calls_events py_str show_thinking tool_calls outcomes n
    = (events, None, n + length tool_calls)
    ∧ closed_block events
    ∧ Forall silent events
    ∧ length (List.filter (has_type "tool_call") events) = length tool_calls.
Proof.
  intros Hok. revert n.
  induction tool_calls as [|tc tcs IH]; intros n.
  - exists []. rewrite Nat.add_0_r.
    split_and!; [done | apply closed_block_nil | constructor | done].
  - simpl.
    destruct (tool_call_events_answer show_thinking tc (outcomes n))
      as (events & -> & Hc & Hs & Hn); [by eauto|].
    destruct (IH (S n)) as (events' & -> & Hc' & Hs' & Hn').
    exists (events ++ events').
    split_and!.
    + f_equal. simpl. lia.
    + by apply closed_block_app.
    + by apply Forall_app.
    + rewrite List.filter_app, length_app, Hn, Hn'. done.
Qed.

Lemma collect_silent events rest fin full_response :
  Forall silent events →
  collect_content (events ++ rest) fin full_response
  = collect_content rest fin full_response.
Proof.
  induction 1 as [|event events (kind & Hk & Hne) _ IH]; [done|].
  simpl. by rewrite Hk, Hne.
Qed.

Lemma join_app l1 l2 : join (l1 ++ l2) = join l1 +:+ join l2.
Proof.
  induction l1 as [|s l1 IH]; [done|].
  simpl. change (join (l1 ++ l2)) with (foldr String.append "" (l1 ++ l2)) in IH.
  unfold join in *. simpl. by rewrite IH, append_assoc.
Qed.

(** The loop over the values of the graph, when no tool execution raises
    anything but an [Exception]. *)
Lemma graph_stream_closed show_thinking events fin outcomes n :
  (∀ k e, outcomes k = inl e → is_Exception e = true) →
  let p := graph_stream py_str show_thinking events fin outcomes n in
  ending p = fin
  ∧ closed_block (pending p)
  ∧ length (List.filter (has_type "tool_call") (pending p))
    = length (met_tool_calls events)
  ∧ ∀ full_response,
      collect_content (pending p) fin full_response
      = collect_content [] fin (full_response +:+ join (answers events)).
Proof.
  intros Hok. revert n.
  induction events as [|event rest IH]; intros n.
  - simpl. split_and!; [done | apply closed_block_nil | done |].
    intros acc. unfold join. simpl. by rewrite append_empty.
  - assert (Hstep : ∃ yielded n',
              graph_event_events py_str show_thinking event outcomes n
              = (yielded, None, n')
              ∧ closed_block yielded
              ∧ length (List.filter (has_type "tool_call") yielded)
                = length (met_tool_calls [event])
              ∧ ∀ tail acc,
                  collect_content (yielded ++ tail) fin acc
                  = collect_content tail fin (acc +:+ join (answers [event]))).
    { destruct event as [event_messages|]; simpl.
      2:{ exists [], n. split_and!; [done | apply closed_block_nil | done |].
          intros tail acc. unfold join. simpl. by rewrite append_empty. }
      destruct (last event_messages) as [[| |text tcs|]|];
        try (exists [], n;
             split_and!; [done | apply closed_block_nil | done |];
             intros tail acc; unfold join; simpl; by rewrite append_empty).
      destruct tcs as [|tc tcs].
      - case_bool_decide as Htext.
        + subst text. exists [], n.
          split_and!; [done | apply closed_block_nil | done |].
          intros tail acc. unfold join. simpl. by rewrite append_empty.
        + exists [content_event text], n.
          split_and!; [done | | done |].
          * split; [simpl; intuition done | by intros e [= <-]].
          * intros tail acc. unfold join. simpl. by rewrite append_empty.
      - destruct (tool_calls_events_closed show_thinking (tc :: tcs)
                    outcomes n Hok) as (evs & -> & Hc & Hs & Hn).
        exists evs, (n + length (tc :: tcs)).
        split_and!; [done | done | by rewrite app_nil_r |].
        intros tail acc. rewrite collect_silent by done.
        unfold join. simpl. by rewrite append_empty. }
    destruct Hstep as (yielded & n' & Hev & Hc & Hn & Hcol).
    cbn [graph_stream]. rewrite Hev.
    destruct (IH n') as (Hend & Hc' & Hn' & Hcol').
    cbn [pending ending]. split_and!.
    + done.
    + by apply closed_block_app.
    + rewrite List.filter_app, length_app, Hn, Hn'.
      change (event :: rest) with ([event] ++ rest).
      unfold met_tool_calls. by rewrite flat_map_app, length_app.
    + intros acc. rewrite Hcol, Hcol'.
      assert (Hans : answers (event :: rest) = answers [event] ++ answers rest).
      { unfold answers. simpl. by rewrite app_nil_r. }
      by rewrite Hans, join_app, append_assoc.
Qed.

End AgentTools.

(** X11: when no tool execution raises anything but an [Exception], a failing
    tool never ends the stream of the agent. Every [tool_call] event is
    followed at once by its [tool_result] or [error] event, the stream has
    one [tool_call] event for each tool call the graph's messages carry, and
    it ends as the iteration over the graph ends. *)
Theorem tool_calls_are_answered py_str messages show_thinking run lc_messages :
  Agent.init_error run = None →
  Agent.convert_messages messages = inr lc_messages →
  tools_return_or_fail run →
  answered (pending (Agent.stream py_str messages show_thinking run))
  ∧ length (List.filter (has_type "tool_call")
              (pending (Agent.stream py_str messages show_thinking run)))
    = length (Agent.met_tool_calls (Agent.graph_events run lc_messages))
  ∧ ending (Agent.stream py_str messages show_thinking run)
    = Agent.graph_end run lc_messages.
Proof.
  intros Hinit Hconv Hok. unfold Agent.stream. rewrite Hinit, Hconv.
  destruct (graph_stream_closed py_str show_thinking
              (Agent.graph_events run lc_messages)
              (Agent.graph_end run lc_messages) (Agent.tool_outcome run) 0 Hok)
    as (Hend & [Hans _] & Hn & _).
  done.
Qed.

Lemma example_tools_return_or_fail : tools_return_or_fail example_agent_run.
Proof. intros [|n] e; [done | by intros [= <-]]. Qed.

Lemma tool_calls_are_answered_witness :
  answered
    (pending (Agent.stream example_py_str (Agent.api_messages example_messages)
                true example_agent_run))
  ∧ length (List.filter (has_type "tool_call")
              (pending (Agent.stream example_py_str
                          (Agent.api_messages example_messages) true
                          example_agent_run)))
    = length (Agent.met_tool_calls
                (Agent.graph_events example_agent_run
                   (lc_message <$> example_messages)))
  ∧ ending (Agent.stream example_py_str (Agent.api_messages example_messages)
              true example_agent_run)
    = Agent.graph_end example_agent_run (lc_message <$> example_messages).
Proof.
  eapply (tool_calls_are_answered example_py_str
            (Agent.api_messages example_messages) true example_agent_run
            (lc_message <$> example_messages)).
  - reflexivity.
  - reflexivity.
  - apply example_tools_return_or_fail.
Defined.

(** X12: [ChatAgent.invoke] returns the answers of the run joined in order:
    the contents of the last messages of the graph's values that are
    [AIMessage]s without tool calls. Tool calls, their results and their
    failures add nothing to it and do not make it fail; it raises only what
    the iteration over the graph raises. *)
Theorem invoke_joins_the_answers py_str messages run lc_messages :
  Agent.init_error run = None →
  Agent.convert_messages messages = inr lc_messages →
  tools_return_or_fail run →
  Agent.invoke py_str messages run
  = match Agent.graph_end run lc_messages with
    | Exhausted =>
        inr (join (Agent.answers (Agent.graph_events run lc_messages)))
    | Raises e => inl (Agent.StreamRaised e)
    end.
Proof.
  intros Hinit Hconv Hok. unfold Agent.invoke, Agent.stream.
  rewrite Hinit, Hconv.
  destruct (graph_stream_closed py_str false
              (Agent.graph_events run lc_messages)
              (Agent.graph_end run lc_messages) (Agent.tool_outcome run) 0 Hok)
    as (Hend & _ & _ & Hcol).
  rewrite Hend, Hcol. simpl. by destruct (Agent.graph_end run lc_messages).
Qed.

Lemma invoke_joins_the_answers_witness :
  Agent.invoke example_py_str (Agent.api_messages example_messages)
    example_agent_run
  = match Agent.graph_end example_agent_run (lc_message <$> example_messages)
    with
    | Exhausted =>
        inr (join (Agent.answers
                     (Agent.graph_events example_agent_run
                        (lc_message <$> example_messages))))
    | Raises e => inl (Agent.StreamRaised e)
    end.
Proof.
  eapply (invoke_joins_the_answers example_py_str
            (Agent.api_messages example_messages) example_agent_run
            (lc_message <$> example_messages)).
  - reflexivity.
  - reflexivity.
  - apply example_tools_return_or_fail.
Defined.

Example invoke_example :
  Agent.invoke example_py_str (Agent.api_messages example_messages)
    example_agent_run
  = inr "2 + 2 is 4; 1 / 0 is undefined.".
Proof. reflexivity. Qed.

Section AgentThinking.
Import Agent.

Context (py_str : Value → string).

Lemma tool_call_events_thinking tool_call outcome :
  List.filter (λ event, negb (has_type "thinking" event))
    (tool_call_events py_str true tool_call outcome).1
  = (tool_call_events py_str false tool_call outcome).1
  ∧ (tool_call_events py_str true tool_call outcome).2
    = (tool_call_events py_str false tool_call outcome).2
  ∧ length (List.filter (has_type "thinking")
              (tool_call_events py_str true tool_call outcome).1)
    = length (List.filter (has_type "tool_call")
                (tool_call_events py_str true tool_call outcome).1).
Proof.
  unfold tool_call_events.
  destruct outcome as [e|r]; [destruct (is_Exception e)|]; done.
Qed.

Lemma tool_calls_events_thinking tool_calls outcomes n :
  List.filter (λ event, negb (has_type "thinking" event))
    (tool_calls_events py_str true tool_calls outcomes n).1.1
  = (tool_calls_events py_str false tool_calls outcomes n).1.1
  ∧ (tool_calls_events py_str true tool_calls outcomes n).1.2
    = (tool_calls_events py_str false tool_calls outcomes n).1.2
  ∧ (tool_calls_events py_str true tool_calls outcomes n).2
    = (tool_calls_events py_str false tool_calls outcomes n).2
  ∧ length (List.filter (has_type "thinking")
              (tool_calls_events py_str true tool_calls outcomes n).1.1)
    = length (List.filter (has_type "tool_call")
                (tool_calls_events py_str true tool_calls outcomes n).1.1).
Proof.
  revert n. induction tool_calls as [|tc tcs IH]; intros n; [done|].
  simpl.
  destruct (tool_call_events_thinking tc (outcomes n)) as (H1 & H2 & H3).
  destruct (tool_call_events py_str true tc (outcomes n)) as [evs1 r1],
    (tool_call_events py_str false tc (outcomes n)) as [evs0 r0].
  simpl in *. subst r0 evs0. destruct r1 as [e|]; [done|].
  destruct (IH (S n)) as (I1 & I2 & I3 & I4).
  destruct (tool_calls_events py_str true tcs outcomes (S n))
    as [[evs1' r1'] n1'],
    (tool_calls_events py_str false tcs outcomes (S n))
    as [[evs0' r0'] n0'].
  simpl in *. subst.
  rewrite !List.filter_app, !length_app. split_and!; congruence.
Qed.

Lemma graph_stream_thinking events fin outcomes n :
  List.filter (λ event, negb (has_type "thinking" event))
    (pending (graph_stream py_str true events fin outcomes n))
  = pending (graph_stream py_str false events fin outcomes n)
  ∧ ending (graph_stream py_str true events fin outcomes n)
    = ending (graph_stream py_str false events fin outcomes n)
  ∧ length (List.filter (has_type "thinking")
              (pending (graph_stream py_str true events fin outcomes n)))
    = length (List.filter (has_type "tool_call")
                (pending (graph_stream py_str true events fin outcomes n))).
Proof.
  revert n. induction events as [|event rest IH]; intros n; [done|].
  assert (Hev :
    List.filter (λ event, negb (has_type "thinking" event))
      (graph_event_events py_str true event outcomes n).1.1
    = (graph_event_events py_str false event outcomes n).1.1
    ∧ (graph_event_events py_str true event outcomes n).1.2
      = (graph_event_events py_str false event outcomes n).1.2
    ∧ (graph_event_events py_str true event outcomes n).2
      = (graph_event_events py_str false event outcomes n).2
    ∧ length (List.filter (has_type "thinking")
                (graph_event_events py_str true event outcomes n).1.1)
      = length (List.filter (has_type "tool_call")
                  (graph_event_events py_str true event outcomes n).1.1)).
  { destruct event as [event_messages|]; [|done]. simpl.
    destruct (last event_messages) as [[| |text tcs|]|]; try done.
    destruct tcs as [|tc tcs]; [by case_bool_decide|].
    apply tool_calls_events_thinking. }
  cbn [graph_stream].
  destruct Hev as (H1 & H2 & H3 & H4).
  destruct (graph_event_events py_str true event outcomes n)
    as [[evs1 r1] n1],
    (graph_event_events py_str false event outcomes n) as [[evs0 r0] n0].
  simpl in H1, H2, H3, H4. subst evs0 r0 n0. destruct r1 as [e|]; [done|].
  destruct (IH n1) as (I1 & I2 & I3). simpl.
  rewrite !List.filter_app, !length_app. split_and!; congruence.
Qed.

Lemma convert_messages_api msgs :
  convert_messages (api_messages msgs) = inr (lc_message <$> msgs).
Proof.
  induction msgs as [|m msgs IH]; [done|].
  cbn [api_messages map convert_messages] in *.
  change (map _ msgs) with (api_messages msgs). rewrite IH.
  unfold lc_message. by destruct m as [[] c t].
Qed.

Lemma convert_messages_skip before msg after r :
  item "role" msg = Some r →
  r ∉ ["system"; "user"; "assistant"] →
  convert_messages (before ++ msg :: after) = convert_messages (before ++ after).
Proof.
  intros Hr Hnot.
  assert (Hm : convert_message msg = inr None).
  { unfold convert_message. rewrite Hr.
    destruct (String.eqb_spec r "system") as [->|_]; [set_solver|].
    destruct (String.eqb_spec r "user") as [->|_]; [set_solver|].
    destruct (String.eqb_spec r "assistant") as [->|_]; [set_solver|].
    done. }
  induction before as [|m before IH]; simpl.
  - rewrite Hm. by destruct (convert_messages after).
  - by rewrite IH.
Qed.

Lemma convert_messages_abort messages msg :
  msg ∈ messages →
  item "role" msg = None →
  ∃ e, convert_messages messages = inl e.
Proof.
  intros Hin Hr. induction messages as [|m rest IH];
    [by apply elem_of_nil in Hin|].
  apply elem_of_cons in Hin as [<-|Hin]; simpl.
  - unfold convert_message. rewrite Hr. eauto.
  - destruct (convert_message m); [eauto|].
    destruct (IH Hin) as [e' ->]. eauto.
Qed.

End AgentThinking.

(** X13: the thinking notes are an addition and nothing else. With
    [show_thinking] the stream of the agent has one [thinking] event for
    each [tool_call] event; without its [thinking] events it is the stream
    the same run gives without [show_thinking], which ends the same way and
    has no [thinking] event. *)
Theorem thinking_events_are_an_addition py_str messages run :
  List.filter (λ event, negb (has_type "thinking" event))
    (pending (Agent.stream py_str messages true run))
  = pending (Agent.stream py_str messages false run)
  ∧ ending (Agent.stream py_str messages true run)
    = ending (Agent.stream py_str messages false run)
  ∧ length (List.filter (has_type "thinking")
              (pending (Agent.stream py_str messages true run)))
    = length (List.filter (has_type "tool_call")
                (pending (Agent.stream py_str messages true run)))
  ∧ List.filter (has_type "thinking")
      (pending (Agent.stream py_str messages false run))
    = [].
Proof.
  assert (H3 :
    List.filter (λ event, negb (has_type "thinking" event))
      (pending (Agent.stream py_str messages true run))
    = pending (Agent.stream py_str messages false run)
    ∧ ending (Agent.stream py_str messages true run)
      = ending (Agent.stream py_str messages false run)
    ∧ length (List.filter (has_type "thinking")
                (pending (Agent.stream py_str messages true run)))
      = length (List.filter (has_type "tool_call")
                  (pending (Agent.stream py_str messages true run)))).
  { unfold Agent.stream. destruct (Agent.init_error run); [done|].
    destruct (Agent.convert_messages messages); [done|].
    apply graph_stream_thinking. }
  destruct H3 as (H1 & H2 & H3). split_and!; try done.
  rewrite <- H1. clear.
  induction (pending (Agent.stream py_str messages true run)) as [|e l IH];
    [done|].
  simpl. destruct (has_type "thinking" e) eqn:He; simpl; [done|].
  by rewrite He.
Qed.

(** X14: the messages of a request are all converted. The dicts
    [start_chat] builds from the messages of a [ChatRequest] are string
    dicts that carry the roles [system], [user] and [assistant] only, so the
    conversion loop of [stream] raises nothing and turns each of them, in
    order, into the LangChain message of its role. *)
Theorem request_messages_are_all_converted msgs :
  message_dicts msgs = Agent.str_dict <$> Agent.api_messages msgs
  ∧ Agent.convert_messages (Agent.api_messages msgs)
    = inr (lc_message <$> msgs)
  ∧ length (lc_message <$> msgs) = length msgs.
Proof.
  split_and!; [| apply convert_messages_api | apply length_fmap].
  unfold message_dicts, Agent.api_messages.
  induction msgs as [|m msgs IH]; [done|]. simpl. by f_equal.
Qed.

(** X15: a message whose role is none of [system], [user] and [assistant]
    is skipped without an error, wherever it stands and whether or not it has
    a content. The conversion loop appends nothing for it: the messages of
    the initial state handed to the graph are those the list gives without
    it, and the agent streams as if the message were not there. *)
Theorem unknown_role_is_skipped py_str before msg after r show_thinking run :
  Agent.item "role" msg = Some r →
  r ∉ ["system"; "user"; "assistant"] →
  Agent.convert_messages (before ++ msg :: after)
  = Agent.convert_messages (before ++ after)
  ∧ Agent.stream py_str (before ++ msg :: after) show_thinking run
    = Agent.stream py_str (before ++ after) show_thinking run.
Proof.
  intros Hr Hnot.
  pose proof (convert_messages_skip before msg after r Hr Hnot) as Hskip.
  split; [done|]. unfold Agent.stream. by rewrite Hskip.
Qed.

Lemma unknown_role_is_skipped_witness :
  Agent.convert_messages
    ([[("role", "system"); ("content", "Be brief.")]]
     ++ [("role", "tool"); ("content", "4")]
     :: [[("role", "user"); ("content", "What is 2 + 2?")]])
  = inr [Agent.SystemMessage "Be brief."; Agent.HumanMessage "What is 2 + 2?"]
  ∧ Agent.stream example_py_str
      ([[("role", "system"); ("content", "Be brief.")]]
       ++ [("role", "tool"); ("content", "4")]
       :: [[("role", "user"); ("content", "What is 2 + 2?")]])
      true example_agent_run
    = Agent.stream example_py_str (Agent.api_messages example_messages)
        true example_agent_run.
Proof.
  apply (unknown_role_is_skipped example_py_str
           [[("role", "system"); ("content", "Be brief.")]]
           [("role", "tool"); ("content", "4")]
           [[("role", "user"); ("content", "What is 2 + 2?")]]
           "tool" true example_agent_run).
  - reflexivity.
  - set_solver.
Defined.

(** X16: one message without a role makes [stream] raise before it yields
    anything: whatever the other messages and whatever the graph would have
    produced, the stream has no event and ends with an exception. *)
Theorem message_without_role_aborts py_str messages msg show_thinking run :
  msg ∈ messages →
  Agent.item "role" msg = None →
  pending (Agent.stream py_str messages show_thinking run) = []
  ∧ ∃ e, ending (Agent.stream py_str messages show_thinking run) = Raises e.
Proof.
  intros Hin Hr. unfold Agent.stream.
  destruct (Agent.init_error run) as [e|]; [by eauto|].
  destruct (convert_messages_abort messages msg Hin Hr) as [e ->]. eauto.
Qed.

Lemma message_without_role_aborts_witness :
  pending (Agent.stream example_py_str
             (Agent.api_messages example_messages ++ [[("content", "hello")]])
             false example_agent_run)
  = []
  ∧ ∃ e,
      ending (Agent.stream example_py_str
                (Agent.api_messages example_messages
                 ++ [[("content", "hello")]])
                false example_agent_run)
      = Raises e.
Proof.
  apply (message_without_role_aborts example_py_str
           (Agent.api_messages example_messages ++ [[("content", "hello")]])
           [("content", "hello")] false example_agent_run).
  - set_solver.
  - reflexivity.
Defined.

(** ** tools/registry.py *)

Section ToolRegistry.
Import Tools.

Context `{BaseTool Tool}.

Lemma getitem_setitem_eq key (tool : Tool) reg :
  getitem key (setitem key tool reg) = Some tool.
Proof.
  induction reg as [|[k t] reg IH]; simpl.
  - by rewrite String.eqb_refl.
  - destruct (String.eqb k key) eqn:Hk; simpl; by rewrite Hk.
Qed.

Lemma getitem_setitem_ne key other (tool : Tool) reg :
  other ≠ key → getitem other (setitem key tool reg) = getitem other reg.
Proof.
  intros Hne. induction reg as [|[k t] reg IH]; simpl.
  - by rewrite (proj2 (String.eqb_neq key other)).
  - destruct (String.eqb_spec k key) as [->|Hk]; simpl.
    + by rewrite (proj2 (String.eqb_neq key other)).
    + by rewrite IH.
Qed.

Lemma getitem_names key (reg : list (string * Tool)) :
  getitem key reg = None ↔ key ∉ get_tool_names reg.
Proof.
  unfold get_tool_names. induction reg as [|[k t] reg IH]; simpl.
  - split; [intros _; apply not_elem_of_nil | done].
  - rewrite not_elem_of_cons. destruct (String.eqb_spec k key) as [->|Hk].
    + split; [done | by intros [? _]].
    + rewrite IH. split; [by intros ?; split | by intros [_ ?]].
Qed.

Lemma setitem_names key (tool : Tool) reg :
  get_tool_names (setitem key tool reg)
  = if decide (key ∈ get_tool_names reg) then get_tool_names reg
    else get_tool_names reg ++ [key].
Proof.
  unfold get_tool_names.
  induction reg as [|[k t] reg IH]; cbn [setitem map fst].
  - by rewrite decide_False by apply not_elem_of_nil.
  - destruct (String.eqb_spec k key) as [->|Hk]; cbn [map fst app].
    + by rewrite decide_True by apply list_elem_of_here.
    + rewrite IH. destruct (decide (key ∈ map fst reg)) as [Hin|Hin].
      * by rewrite decide_True by by apply list_elem_of_further.
      * rewrite decide_False; [done|].
        rewrite not_elem_of_cons. by split.
Qed.

Lemma setitem_keyed tool (reg : list (string * Tool)) :
  keyed_by_name reg → keyed_by_name (register tool reg).
Proof.
  unfold keyed_by_name, register.
  induction 1 as [|[k t] reg Hk Hreg IH]; simpl.
  - by repeat constructor.
  - destruct (String.eqb_spec k (name tool)) as [->|Hne];
      constructor; done.
Qed.

Lemma keyed_names (reg : list (string * Tool)) :
  keyed_by_name reg → get_tool_names reg = name <$> get_all_tools reg.
Proof.
  unfold get_tool_names, get_all_tools.
  induction 1 as [|[k t] reg Hkt _ IH]; [done|].
  simpl in *. by rewrite Hkt, IH.
Qed.

Lemma registered_snoc tools (tool : Tool) :
  registered (tools ++ [tool]) = register tool (registered tools).
Proof. unfold registered. by rewrite foldl_app. Qed.

Lemma registered_invariant (tools : list Tool) :
  keyed_by_name (registered tools)
  ∧ NoDup (get_tool_names (registered tools))
  ∧ ∀ n, n ∈ get_tool_names (registered tools) ↔ n ∈ name <$> tools.
Proof.
  induction tools as [|tool tools (Hk & Hn & Hin)] using rev_ind.
  - split_and!; [constructor | constructor | done].
  - rewrite registered_snoc. split_and!.
    + by apply setitem_keyed.
    + unfold register. rewrite setitem_names. case_decide; [done|].
      apply NoDup_app. split_and!; [done | | apply NoDup_singleton].
      intros x Hx Hx'. apply list_elem_of_singleton in Hx' as ->. done.
    + intros n. unfold register. rewrite setitem_names, fmap_app.
      case_decide as Hd; rewrite ?elem_of_app, Hin; simpl;
        rewrite list_elem_of_singleton; [|done].
      split; [by left | intros [?| ->]; [done | by apply Hin]].
Qed.

End ToolRegistry.

(** X17: a tool that was registered is found under its name, and registering
    it changes what no other name gives. *)
Theorem register_then_get_tool `{Tools.BaseTool Tool} (tool : Tool) reg other :
  Tools.get_tool (Tools.name tool) (Tools.register tool reg) = inr tool
  ∧ (other ≠ Tools.name tool →
     Tools.get_tool other (Tools.register tool reg) = Tools.get_tool other reg).
Proof.
  unfold Tools.get_tool, Tools.register. split.
  - by rewrite getitem_setitem_eq.
  - intros Hne. by rewrite getitem_setitem_ne.
Qed.

(** X18: [get_tool] raises [KeyError("Tool not found: <name>")] exactly for
    the names [get_tool_names] does not list, and returns a tool for the
    names it lists; a new registry finds no tool. *)
Theorem get_tool_fails_on_unlisted_names `{Tools.BaseTool Tool}
    (reg : list (string * Tool)) tool_name :
  (tool_name ∉ Tools.get_tool_names reg ↔
   Tools.get_tool tool_name reg
   = inl (Tools.KeyError ("Tool not found: " +:+ tool_name)))
  ∧ (tool_name ∈ Tools.get_tool_names reg ↔
     ∃ tool, Tools.get_tool tool_name reg = inr tool)
  ∧ Tools.get_tool tool_name (Tools.new (Tool := Tool))
    = inl (Tools.KeyError ("Tool not found: " +:+ tool_name)).
Proof.
  pose proof (getitem_names tool_name reg) as Hn.
  unfold Tools.get_tool.
  destruct (Tools.getitem tool_name reg) as [tool|] eqn:Hg.
  - assert (Hin : tool_name ∈ Tools.get_tool_names reg).
    { destruct (decide (tool_name ∈ Tools.get_tool_names reg)); [done|].
      by apply Hn in n. }
    split_and!; [split; [done | by intros [=]] | split; [eauto | done] | done].
  - assert (Hnot : tool_name ∉ Tools.get_tool_names reg) by by apply Hn.
    split_and!; [done | split; [done | by intros [? [=]]] | done].
Qed.

(** X19: the names of a registry are those of the tools registered so far,
    each once, and each stored tool is listed under its own name.
    Registering a tool whose name is listed replaces the tool in place: the
    names and their order stay as they are. *)
Theorem registered_names_are_unique `{Tools.BaseTool Tool} (tools : list Tool) :
  NoDup (Tools.get_tool_names (Tools.registered tools))
  ∧ Tools.get_tool_names (Tools.registered tools)
    = Tools.name <$> Tools.get_all_tools (Tools.registered tools)
  ∧ (∀ n, n ∈ Tools.get_tool_names (Tools.registered tools)
          ↔ n ∈ Tools.name <$> tools)
  ∧ ∀ tool, Tools.name tool ∈ Tools.get_tool_names (Tools.registered tools) →
      Tools.get_tool_names (Tools.register tool (Tools.registered tools))
      = Tools.get_tool_names (Tools.registered tools).
Proof.
  destruct (registered_invariant tools) as (Hk & Hn & Hin).
  split_and!; [done | | done |].
  - by apply keyed_names.
  - intros tool Hl. unfold Tools.register. rewrite setitem_names.
    by rewrite decide_True.
Qed.

Lemma to_langchain_tools_loop `{Tools.BaseTool Tool} (tools : list Tool)
    cell acc :
  foldl Tools.to_langchain_tools_iter (cell, acc) tools
  = (match last tools with Some final => Some final | None => cell end,
     acc ++ ((λ tool, {| Tools.st_func := Tools.execute_wrapper;
                         Tools.st_name := Tools.name tool;
                         Tools.st_description := Tools.description tool;
                         Tools.st_args_schema := Tools.input_schema tool |})
               <$> tools)).
Proof.
  revert cell acc. induction tools as [|t tools IH]; intros cell acc.
  - simpl. by rewrite app_nil_r.
  - cbn [foldl]. unfold Tools.to_langchain_tools_iter at 2. cbn [snd].
    rewrite IH, fmap_cons, <- app_assoc. simpl. f_equal.
    rewrite last_cons. by destruct (last tools).
Qed.

(** X20: every wrapper [to_langchain_tools] builds runs the last tool of the
    registry. The LangChain tools carry the names, descriptions and schemas
    of the registered tools, one each and in order, but [execute_wrapper]
    reads the loop variable [tool] when it is called, after the loop: called
    under any name, it validates with the input schema of the last tool and
    executes the last tool. *)
Theorem wrappers_run_the_last_tool `{Tools.BaseTool Tool}
    (reg : list (string * Tool)) final :
  last (Tools.get_all_tools reg) = Some final →
  Tools.st_name <$> Tools.to_langchain_tools reg
  = Tools.name <$> Tools.get_all_tools reg
  ∧ Tools.st_description <$> Tools.to_langchain_tools reg
    = Tools.description <$> Tools.get_all_tools reg
  ∧ Tools.st_args_schema <$> Tools.to_langchain_tools reg
    = Tools.input_schema <$> Tools.get_all_tools reg
  ∧ Forall (λ st, ∀ kwargs,
              Tools.call_func reg st kwargs
              = match Tools.input_schema final kwargs with
                | inl e => inl e
                | inr input_data =>
                    match Tools.execute final input_data with
                    | inl e => inl e
                    | inr output =>
                        match Tools.error_set output with
                        | Some message => inl (Exception message)
                        | None => inr (Tools.result output)
                        end
                    end
                end)
           (Tools.to_langchain_tools reg).
Proof.
  intros Hlast.
  unfold Tools.call_func, Tools.to_langchain_tools,
    Tools.to_langchain_tools_frame.
  rewrite to_langchain_tools_loop, Hlast. cbn [fst snd app].
  rewrite <- !list_fmap_compose. split_and!; [done | done | done |].
  apply Forall_fmap, Forall_true. by intros tool kwargs.
Qed.

Lemma wrappers_run_the_last_tool_witness :
  Tools.st_name
    <$> Tools.to_langchain_tools (Tools.registered [Calculator; DiceRoller])
  = ["calculator"; "dice_roller"]
  ∧ Forall (λ st, ∀ kwargs,
              Tools.call_func (Tools.registered [Calculator; DiceRoller])
                st kwargs
              = inr (VStr "You rolled 6"))
           (Tools.to_langchain_tools
              (Tools.registered [Calculator; DiceRoller])).
Proof.
  destruct (wrappers_run_the_last_tool
              (Tools.registered [Calculator; DiceRoller]) DiceRoller)
    as (Hnames & _ & _ & Hcalls); [reflexivity|].
  split; [exact Hnames | exact Hcalls].
Defined.

Example calculator_wrapper_rolls_dice :
  (λ st, (Tools.st_name st,
          Tools.call_func (Tools.registered [Calculator; DiceRoller]) st
            [("expression", VStr "2 + 2")]))
    <$> Tools.to_langchain_tools (Tools.registered [Calculator; DiceRoller])
  = [("calculator", inr (VStr "You rolled 6"));
     ("dice_roller", inr (VStr "You rolled 6"))].
Proof. reflexivity. Qed.
